(** * FreshRSS MCP server: the client of [src/index.ts], embedded and verified

    The development follows the source file from top to bottom:

    - the JavaScript values the program handles (parsed JSON bodies, strings,
      numbers) and the handful of built-ins it calls on them;
    - [chunkArray];
    - the HTTP library as a state-passing monad over an arbitrary service,
      which records every exchange, so that statements such as "no subscribe
      request is issued" are statements about the recorded log;
    - [FreshRSSClient]: [request], [getUnreadItems], [getFeedItems],
      [getGReaderAuthAndToken], [subscribeFeed], [createCategory];
    - the tool handler for [get_unread] and [get_feed_items];
    - the properties of the specification, one theorem per claim.

    Modelling choices.  Strings are Rocq strings, one character per code
    unit below 256.  Numbers are the integers (the ids, counters and flags of
    the two protocols), together with [NaN], which [parseInt] can produce.
    A thrown JavaScript exception is the [Throw] completion of the monad; the
    state of the service and the log survive it, as they do in the program. *)

From Stdlib Require Import ZArith List String Ascii Bool Lia.
From Stdlib Require Import DecimalString DecimalPos DecimalZ.
From Equations Require Import Equations.
Import ListNotations.

Open Scope string_scope.
Open Scope list_scope.
Open Scope Z_scope.

Infix "+++" := String.append (at level 60, right associativity).

(* ================================================================== *)
(** * JavaScript values *)

Module JS.

(** ** Strings *)

(** ECMAScript white space and line terminators among the code units below
    256: TAB, LF, VT, FF, CR, SPACE and NO-BREAK SPACE.  This is the class of
    [String.prototype.trim], of [\s] in a regular expression and of the
    prefix [parseInt] skips. *)
Definition isWhiteSpace (c : ascii) : bool :=
  let n := N_of_ascii c in
  ((9 <=? n) && (n <=? 13) || (n =? 32) || (n =? 160))%N.

Definition isDigit (c : ascii) : bool :=
  let n := N_of_ascii c in ((48 <=? n) && (n <=? 57))%N.

Fixpoint trimStart (s : string) : string :=
  match s with
  | EmptyString => EmptyString
  | String c r => if isWhiteSpace c then trimStart r else s
  end.

(** [trimEnd] keeps a character when it is not white space or when
    something is kept after it. *)
Fixpoint trimEnd (s : string) : string :=
  match s with
  | EmptyString => EmptyString
  | String c r =>
      match trimEnd r with
      | EmptyString => if isWhiteSpace c then EmptyString else String c EmptyString
      | r' => String c r'
      end
  end.

Definition trim (s : string) : string := trimEnd (trimStart s).

(** [s.split(sep)] for a separator of one character. *)
Fixpoint split (sep : ascii) (s : string) : list string :=
  match s with
  | EmptyString => [EmptyString]
  | String c r =>
      if Ascii.eqb c sep then EmptyString :: split sep r
      else match split sep r with
           | [] => [String c EmptyString]
           | w :: ws => String c w :: ws
           end
  end.

(** [parts.join(sep)]. *)
Fixpoint join (sep : string) (parts : list string) : string :=
  match parts with
  | [] => EmptyString
  | [p] => p
  | p :: rest => p +++ sep +++ join sep rest
  end.

(** [s.replace(/\s/g, '')]. *)
Fixpoint removeWhiteSpace (s : string) : string :=
  match s with
  | EmptyString => EmptyString
  | String c r => if isWhiteSpace c then removeWhiteSpace r else String c (removeWhiteSpace r)
  end.

(** [s.replace(/\/$/, '')]: one trailing slash is dropped. *)
Fixpoint removeTrailingSlash (s : string) : string :=
  match s with
  | EmptyString => EmptyString
  | String c EmptyString => if Ascii.eqb c "/" then EmptyString else s
  | String c r => String c (removeTrailingSlash r)
  end.

(** The longest prefix of [s] made of characters satisfying [p], and the
    rest. *)
Fixpoint span (p : ascii -> bool) (s : string) : string * string :=
  match s with
  | EmptyString => (EmptyString, EmptyString)
  | String c r =>
      if p c then let (a, b) := span p r in (String c a, b)
      else (EmptyString, s)
  end.

(** [s.startsWith(p)], returning what follows the prefix. *)
Fixpoint stripPrefix (p s : string) : option string :=
  match p, s with
  | EmptyString, _ => Some s
  | String a p', String b s' => if Ascii.eqb a b then stripPrefix p' s' else None
  | String _ _, EmptyString => None
  end.

(** ** Numbers *)

(** The numbers the program meets are integers (ids, counts, status codes,
    seconds) and [NaN].  An integer is kept as it is: this is the number of
    the language for the integers it holds exactly, those of size at most
    2^53 - 1, and statements that depend on the value of a parsed or
    printed number say so with [safeInteger]. *)
Inductive number : Type :=
| NaN
| Int (z : Z).

(** [String(n)]: the decimal digits of an integer, as the language prints
    every integer below 10^21 in size. *)
Definition numberToString (n : number) : string :=
  match n with
  | NaN => "NaN"
  | Int z => NilZero.string_of_int (Z.to_int z)
  end.

Definition digitValue (c : ascii) : Z := Z.of_N (N_of_ascii c) - 48.

Fixpoint digitsValue (acc : Z) (s : string) : Z :=
  match s with
  | EmptyString => acc
  | String c r => digitsValue (10 * acc + digitValue c) r
  end.

(** [parseInt(s, 10)]: skip white space, read a sign, read the longest run
    of decimal digits; [NaN] when that run is empty.  The result is the
    integer the digits denote, which is what the language returns when that
    integer is one it holds exactly. *)
Definition parseInt (s : string) : number :=
  let s1 := trimStart s in
  let '(sign, s2) :=
    match s1 with
    | String "-" r => (-1, r)
    | String "+" r => (1, r)
    | _ => (1, s1)
    end in
  match fst (span isDigit s2) with
  | EmptyString => NaN
  | ds => Int (sign * digitsValue 0 ds)
  end.

(** ** Values *)

#[local] Set Warnings "-register-all".

Inductive value : Type :=
| Undefined
| Null
| Bool (b : bool)
| Num (n : number)
| Str (s : string)
| Arr (elems : list value)
| Obj (props : list (string * value)).

Definition num (z : Z) : value := Num (Int z).

(** [String(v)] and the conversion of a template literal.  An array prints
    its elements separated by commas, [null] and [undefined] elements as the
    empty string; a plain object prints as [[object Object]]. *)
Fixpoint toString (v : value) : string :=
  match v with
  | Undefined => "undefined"
  | Null => "null"
  | Bool true => "true"
  | Bool false => "false"
  | Num n => numberToString n
  | Str s => s
  | Arr elems =>
      (fix elements (l : list value) : string :=
         let element (x : value) :=
           match x with Undefined | Null => EmptyString | _ => toString x end in
         match l with
         | [] => EmptyString
         | [x] => element x
         | x :: rest => element x +++ "," +++ elements rest
         end) elems
  | Obj _ => "[object Object]"
  end.

(** [Boolean(v)], the test of [if], [!], [&&] and [||]. *)
Definition truthy (v : value) : bool :=
  match v with
  | Undefined | Null => false
  | Bool b => b
  | Num NaN => false
  | Num (Int z) => negb (z =? 0)
  | Str s => negb (String.eqb s EmptyString)
  | Arr _ | Obj _ => true
  end.

(** [a || b] and [a ?? b]. *)
Definition or (a b : value) : value := if truthy a then a else b.

Definition isNullish (v : value) : bool :=
  match v with Undefined | Null => true | _ => false end.

Definition nullish (a b : value) : value := if isNullish a then b else a.

(** [a === b] where one side is a primitive, as in every comparison of the
    program.  Two arrays or two objects are equal only when they are the same
    object, which a freshly parsed body never is. *)
Definition strictEquals (a b : value) : bool :=
  match a, b with
  | Undefined, Undefined => true
  | Null, Null => true
  | Bool x, Bool y => Bool.eqb x y
  | Num (Int x), Num (Int y) => x =? y
  | Str x, Str y => String.eqb x y
  | _, _ => false
  end.

Definition isArray (v : value) : bool :=
  match v with Arr _ => true | _ => false end.

Definition isString (v : value) : bool :=
  match v with Str _ => true | _ => false end.

(** Own properties of a parsed object, first binding of the key. *)
Fixpoint lookup (k : string) (props : list (string * value)) : value :=
  match props with
  | [] => Undefined
  | (k', v) :: rest => if String.eqb k k' then v else lookup k rest
  end.

(** [v?.k]: [undefined] on [null] and [undefined]; on the other values, the
    property.  None of the names the program reads ([api_version], [items],
    [is_read], [feed_id], [error], [tags], [id], ...) is a built-in property
    of a string, number, boolean or array, so only objects carry them. *)
Definition optProp (v : value) (k : string) : value :=
  match v with
  | Obj props => lookup k props
  | _ => Undefined
  end.

(** [obj.k = v] on an object: the binding is replaced in place, or added at
    the end. *)
Fixpoint assign (k : string) (v : value) (props : list (string * value))
  : list (string * value) :=
  match props with
  | [] => [(k, v)]
  | (k', v') :: rest =>
      if String.eqb k k' then (k, v) :: rest else (k', v') :: assign k v rest
  end.

End JS.

(* ================================================================== *)
(** * [chunkArray] *)

(** [arr.slice(start, end)] for integer bounds: a negative bound counts from
    the end, and both are clamped to the array. *)
Definition slice {T} (arr : list T) (start end_ : Z) : list T :=
  let len := Z.of_nat (List.length arr) in
  let k := if start <? 0 then Z.max (len + start) 0 else Z.min start len in
  let final := if end_ <? 0 then Z.max (len + end_) 0 else Z.min end_ len in
  firstn (Z.to_nat (final - k)) (skipn (Z.to_nat k) arr).

(** The [for] loop of [chunkArray], entered with the index [i] and the
    batches pushed so far.  It is only reached with a positive [chunkSize],
    which is what makes [arr.length - i] decrease. *)
Equations? chunkLoop {T} (arr : list T) (chunkSize : Z) (positive : 0 < chunkSize)
    (i : Z) (out : list (list T)) : list (list T)
    by wf (Z.to_nat (Z.of_nat (List.length arr) - i)) lt :=
  chunkLoop arr chunkSize positive i out with Z_lt_dec i (Z.of_nat (List.length arr)) := {
    | left _ =>
        chunkLoop arr chunkSize positive (i + chunkSize)
                  (out ++ [slice arr i (i + chunkSize)]);
    | right _ => out }.
Proof. lia. Qed.

(** [chunkArray]; the chunk size is an integer, as at its one call site. *)
Definition chunkArray {T} (arr : list T) (chunkSize : Z) : list (list T) :=
  match Z_le_dec chunkSize 0 with
  | left _ => [arr]
  | right gt => chunkLoop arr chunkSize (proj1 (Z.nle_gt chunkSize 0) gt) 0 []
  end.

(* ================================================================== *)
(** * Exceptions, and the HTTP library *)

(** What [axios] hands back for a request that got an answer. *)
Module Response.
Record t : Type := { status : Z; data : JS.value }.
End Response.

Definition AxiosResponse : Type := Response.t.

(** The part of [ErrorCode] the program uses. *)
Inductive ErrorCode : Type := InternalError | MethodNotFound.

(** The exceptions that travel through the program: the error of the HTTP
    library (with the response, when there was one), the protocol error of
    the SDK, [new Error(...)], and the [TypeError] of the language itself. *)
Inductive Exn : Type :=
| AxiosError (message : string) (response : option AxiosResponse)
| McpError (code : ErrorCode) (message : string)
| Error (message : string)
| TypeError (message : string).

Definition isAxiosError (e : Exn) : bool :=
  match e with AxiosError _ _ => true | _ => false end.

Definition isMcpError (e : Exn) : bool :=
  match e with McpError _ _ => true | _ => false end.

(** [err.message], and [err.response?.data]. *)
Definition exnMessage (e : Exn) : string :=
  match e with
  | AxiosError m _ | Error m | TypeError m => m
  | McpError InternalError m => "MCP error -32603: " +++ m
  | McpError MethodNotFound m => "MCP error -32601: " +++ m
  end.

Definition exnResponseData (e : Exn) : JS.value :=
  match e with
  | AxiosError _ (Some r) => Response.data r
  | _ => JS.Undefined
  end.

(** [String(err)]: the name of the error, then the message.  An error that
    the HTTP library makes from a failed transport takes the name of the
    error it wraps, which the model does not keep: the text computed here
    for an error without a response stands for a text of that form, and no
    statement fixes it. *)
Definition exnToString (e : Exn) : string :=
  let name := match e with
              | AxiosError _ _ => "AxiosError"
              | McpError _ _ => "McpError"
              | Error _ => "Error"
              | TypeError _ => "TypeError"
              end in
  if String.eqb (exnMessage e) EmptyString then name
  else name +++ ": " +++ exnMessage e.

(** The request configuration given to [axios(...)].  [form] is the
    [data: new URLSearchParams(...)] body, as the list of its pairs;
    [validateStatus] is [None] when the caller leaves the default. *)
Record AxiosConfig : Type := {
  method : string;
  url : string;
  headers : list (string * string);
  form : list (string * string);
  params : list (string * string);
  validateStatus : option (Z -> bool)
}.

(** What the service does with a request: it answers with a status and a
    body (already parsed by the library when it is JSON, a string
    otherwise), or the request dies on the way. *)
Inductive ServerReply : Type :=
| Reply (status : Z) (data : JS.value)
| NoReply (message : string).

Definition Exchange : Type := AxiosConfig * ServerReply.

(** The default of the library: [status >= 200 && status < 300]. *)
Definition defaultValidateStatus (status : Z) : bool :=
  (200 <=? status) && (status <? 300).

Definition acceptsStatus (config : AxiosConfig) (status : Z) : bool :=
  match validateStatus config with
  | Some f => f status
  | None => defaultValidateStatus status
  end.

(** ** The monad of the asynchronous code *)

Inductive completion (A : Type) : Type :=
| Return (a : A)
| Throw (e : Exn).
Arguments Return {A} a.
Arguments Throw {A} e.

(** The service's own state, and the log of the exchanges so far, oldest
    first. *)
Record Net (World : Type) : Type := { world : World; log : list Exchange }.
Arguments world {World} _.
Arguments log {World} _.

Definition M (World A : Type) : Type := Net World -> completion A * Net World.

Definition ret {World A} (a : A) : M World A := fun st => (Return a, st).

Definition throw {World A} (e : Exn) : M World A := fun st => (Throw e, st).

Definition bind {World A B} (m : M World A) (k : A -> M World B) : M World B :=
  fun st =>
    match m st with
    | (Return a, st') => k a st'
    | (Throw e, st') => (Throw e, st')
    end.

(** [try { m } catch (error) { handler }], and [promise.catch(handler)]. *)
Definition tryCatch {World A} (m : M World A) (handler : Exn -> M World A) : M World A :=
  fun st =>
    match m st with
    | (Return a, st') => (Return a, st')
    | (Throw e, st') => handler e st'
    end.

Notation "x <- m ;; k" := (bind m (fun x => k))
  (at level 61, m at next level, right associativity).

(** [v.k]: reading a property of [null] or [undefined] throws. *)
Definition prop {World} (v : JS.value) (k : string) : M World JS.value :=
  if JS.isNullish v
  then throw (TypeError ("Cannot read properties of " +++ JS.toString v
                           +++ " (reading '" +++ k +++ "')"))
  else ret (JS.optProp v k).

(** [v.k = x] on a parsed object. *)
Definition setProp {World} (v : JS.value) (k : string) (x : JS.value) : M World JS.value :=
  match v with
  | JS.Obj props => ret (JS.Obj (JS.assign k x props))
  | _ => throw (TypeError ("Cannot create property '" +++ k +++ "' on " +++ JS.toString v))
  end.

(** [arr.filter(f)] and [arr.some(f)] for a callback that may throw. *)
Fixpoint filterM {World A} (f : A -> M World bool) (l : list A) : M World (list A) :=
  match l with
  | [] => ret []
  | x :: rest =>
      keep <- f x ;;
      kept <- filterM f rest ;;
      ret (if keep then x :: kept else kept)
  end.

Fixpoint someM {World A} (f : A -> M World bool) (l : list A) : M World bool :=
  match l with
  | [] => ret false
  | x :: rest =>
      found <- f x ;;
      if found then ret true else someM f rest
  end.

(* ================================================================== *)
(** * [FreshRSSClient] *)

Record FreshRSSClient : Type := {
  apiUrl : string;
  username : string;
  password : string;
  apiKey : string
}.

(** The constructor; [md5Hex] is [crypto.createHash('md5')...digest('hex')]. *)
Definition newFreshRSSClient (md5Hex : string -> string)
    (apiUrl username password : string) : FreshRSSClient :=
  {| apiUrl := JS.removeTrailingSlash apiUrl;
     username := username;
     password := password;
     apiKey := md5Hex (username +++ ":" +++ password) |}.

(** The result of [getGReaderAuthAndToken]. *)
Record Session : Type := { auth : string; editToken : string; base : string }.

(** The result of [subscribeFeed]; a field the object literal leaves out
    reads as [undefined]. *)
Record SubscribeResult : Type := {
  feedId : JS.value;
  title : JS.value;
  numResults : JS.value;
  error : JS.value
}.

(** The result of [createCategory]. *)
Record CategoryResult : Type := { created : bool; message : string }.

(** The result of a tool call: [{content: [{type: "text", text}]}]. *)
Record ToolResult : Type := { text : JS.value }.

Definition formUrlEncoded : string * string :=
  ("Content-Type", "application/x-www-form-urlencoded").

Definition placeholderFeed : string :=
  "https://github.com/FreshRSS/FreshRSS/releases.atom".

Definition doubleQuote : string := String (ascii_of_nat 34) EmptyString.

(** [[^\s\n]]: any character but white space. *)
Definition nonSpace (c : ascii) : bool := negb (JS.isWhiteSpace c).

(** [/Auth=([^\s\n]+)/] applied by [String.prototype.match]: the leftmost
    position where [Auth=] is followed by at least one character that is not
    white space; the group is the longest run of such characters. *)
Definition matchAuthHere (s : string) : option string :=
  match JS.stripPrefix "Auth=" s with
  | Some rest =>
      match fst (JS.span nonSpace rest) with
      | EmptyString => None
      | group => Some group
      end
  | None => None
  end.

Fixpoint matchAuth (s : string) : option string :=
  match matchAuthHere s with
  | Some group => Some group
  | None =>
      match s with
      | EmptyString => None
      | String _ r => matchAuth r
      end
  end.

Section Client.

Context {World : Type}.

(** The service behind the two protocols: any function of its state and of
    the request. *)
Context (server : World -> AxiosConfig -> ServerReply * World).

(** [JSON.stringify(value, null, space)], from the language's library. *)
Context (JSON_stringify : JS.value -> Z -> JS.value).

(** [await axios(config)]: the exchange is logged; a status the
    configuration does not accept, or no answer at all, rejects. *)
Definition axios (config : AxiosConfig) : M World AxiosResponse :=
  fun st =>
    let (reply, w) := server (world st) config in
    let st' := {| world := w; log := log st ++ [(config, reply)] |} in
    match reply with
    | Reply status data =>
        let response := {| Response.status := status; Response.data := data |} in
        if acceptsStatus config status then (Return response, st')
        else (Throw (AxiosError ("Request failed with status code "
                                   +++ JS.numberToString (JS.Int status))
                                (Some response)), st')
    | NoReply message => (Throw (AxiosError message None), st')
    end.

(** [request]: every call of the simple protocol.  [endpoint] and [method]
    are accepted and not used, as in the source. *)
Definition request (c : FreshRSSClient) (endpoint method : string)
    (data : list (string * string)) : M World JS.value :=
  tryCatch
    (response <- axios {| method := "POST";
                          url := apiUrl c +++ "/api/fever.php";
                          headers := [formUrlEncoded];
                          form := ("api_key", apiKey c) :: data;
                          params := [];
                          validateStatus := None |} ;;
     if negb (JS.truthy (JS.optProp (Response.data response) "api_version"))
     then throw (Error "Invalid API response")
     else ret (Response.data response))
    (fun error =>
       if isAxiosError error
       then throw (McpError InternalError
                     ("FreshRSS API error: "
                        +++ JS.toString (JS.or (JS.optProp (exnResponseData error) "error")
                                               (JS.Str (exnMessage error)))))
       else throw error).

(** The [for ... of] loop of [getUnreadItems] over the batches that remain,
    with the accumulator [allUnreadItems]. *)
Fixpoint fetchBatches (c : FreshRSSClient) (batches : list (list string))
    (allUnreadItems : list JS.value) : M World (list JS.value) :=
  match batches with
  | [] => ret allUnreadItems
  | batch :: rest =>
      itemsResp <- request c "" "GET" [("items", ""); ("with_ids", JS.join "," batch)] ;;
      items <- prop itemsResp "items" ;;
      fetchBatches c rest
        (if JS.truthy items && JS.isArray items
         then match items with
              | JS.Arr elems => allUnreadItems ++ elems
              | _ => allUnreadItems
              end
         else allUnreadItems)
  end.

Definition isUnread (item : JS.value) : M World bool :=
  is_read <- prop item "is_read" ;;
  ret (JS.strictEquals is_read (JS.num 0)).

Definition getUnreadItems (c : FreshRSSClient) : M World JS.value :=
  unreadIdsResp <- request c "" "GET" [("unread_item_ids", "")] ;;
  unread_item_ids <- prop unreadIdsResp "unread_item_ids" ;;
  let unreadIds :=
    filter (fun s => JS.truthy (JS.Str s))
           (map JS.trim
                (JS.split "," (JS.toString (JS.or unread_item_ids (JS.Str ""))))) in
  allUnreadItems <- fetchBatches c (chunkArray unreadIds 50) [] ;;
  items <- filterM isUnread allUnreadItems ;;
  api_version <- prop unreadIdsResp "api_version" ;;
  auth <- prop unreadIdsResp "auth" ;;
  last_refreshed_on_time <- prop unreadIdsResp "last_refreshed_on_time" ;;
  ret (JS.Obj [("api_version", api_version);
               ("auth", auth);
               ("last_refreshed_on_time", last_refreshed_on_time);
               ("total_items", JS.num (Z.of_nat (List.length items)));
               ("items", JS.Arr items)]).

Definition getFeedItems (c : FreshRSSClient) (feedId : JS.value) : M World JS.value :=
  let numericFeedId :=
    match feedId with
    | JS.Str s => JS.Num (JS.parseInt s)
    | _ => feedId
    end in
  request c "" "GET" [("items", ""); ("feed_ids", JS.toString numericFeedId)].

(** The text of [${axios.isAxiosError(err) ? err.response?.data || err.message : err}]. *)
Definition failureText (err : Exn) : string :=
  if isAxiosError err
  then JS.toString (JS.or (exnResponseData err) (JS.Str (exnMessage err)))
  else exnToString err.

(** [tokenRes.data?.trim()]: nothing on [null] and [undefined], the trimmed
    string on a string, and a [TypeError] on any other parsed body, which has
    no [trim] method. *)
Definition optTrim (v : JS.value) : M World JS.value :=
  match v with
  | JS.Undefined | JS.Null => ret JS.Undefined
  | JS.Str s => ret (JS.Str (JS.trim s))
  | _ => throw (TypeError "tokenRes.data?.trim is not a function")
  end.

Definition getGReaderAuthAndToken (c : FreshRSSClient) : M World Session :=
  let base := JS.removeTrailingSlash (apiUrl c) +++ "/api/greader.php" in
  loginRes <-
    tryCatch
      (axios {| method := "POST";
                url := base +++ "/accounts/ClientLogin";
                headers := [formUrlEncoded];
                form := [("Email", username c); ("Passwd", password c)];
                params := [];
                validateStatus := None |})
      (fun err => throw (McpError InternalError
                           ("FreshRSS Google Reader login failed: " +++ failureText err))) ;;
  match matchAuth (JS.toString (Response.data loginRes)) with
  | None =>
      throw (McpError InternalError "FreshRSS Google Reader: no Auth token in login response")
  | Some group =>
      let auth := JS.trim group in
      tokenRes <-
        tryCatch
          (axios {| method := "GET";
                    url := base +++ "/reader/api/0/token";
                    headers := [("Authorization", "GoogleLogin auth=" +++ auth)];
                    form := [];
                    params := [];
                    validateStatus := None |})
          (fun err => throw (McpError InternalError
                               ("FreshRSS Google Reader token failed: " +++ failureText err))) ;;
      trimmed <- optTrim (Response.data tokenRes) ;;
      let editToken :=
        JS.removeWhiteSpace (JS.toString (JS.nullish trimmed (JS.Str ""))) in
      if negb (JS.truthy (JS.Str editToken))
      then throw (McpError InternalError "FreshRSS Google Reader: no edit token returned")
      else ret {| auth := auth; editToken := editToken; base := base |}
  end.

Definition subscribeFeed (c : FreshRSSClient) (feedUrl : string)
    (categoryName : JS.value) : M World SubscribeResult :=
  session <- getGReaderAuthAndToken c ;;
  let params0 := [("ac", "subscribe"); ("s", "feed/" +++ feedUrl); ("T", editToken session)] in
  let params1 :=
    if negb (JS.isNullish categoryName) && negb (JS.strictEquals categoryName (JS.Str ""))
    then params0 ++ [("a", "user/-/label/" +++ JS.toString categoryName)]
    else params0 in
  res <- axios {| method := "POST";
                  url := base session +++ "/reader/api/0/subscription/edit";
                  headers := [("Authorization", "GoogleLogin auth=" +++ auth session);
                              formUrlEncoded];
                  form := params1;
                  params := [];
                  validateStatus := Some (fun _ => true) |} ;;
  let body := Response.data res in
  if negb (Response.status res =? 200)
  then
    let msg :=
      if JS.isString body then body
      else JS.or (JS.optProp body "error")
                 (JS.or (JS.optProp body "message") (JSON_stringify body 0)) in
    ret {| feedId := JS.Undefined; title := JS.Undefined;
           numResults := JS.Undefined; error := msg |}
  else
    if match body with JS.Str s => String.eqb (JS.trim s) "OK" | _ => false end
    then ret {| feedId := JS.Undefined; title := JS.Undefined;
                numResults := JS.num 1; error := JS.Undefined |}
    else ret {| feedId := JS.nullish (JS.optProp body "streamId") (JS.optProp body "feedId");
                title := JS.nullish (JS.optProp body "streamName") (JS.optProp body "title");
                numResults := JS.optProp body "numResults";
                error := JS.optProp body "error" |}.

(** [tags.some(...)]: only an array has the method. *)
Definition tagsSome (tags : JS.value) (f : JS.value -> M World bool) : M World bool :=
  match tags with
  | JS.Arr elems => someM f elems
  | _ => throw (TypeError "tags.some is not a function")
  end.

Definition createCategory (c : FreshRSSClient) (categoryName : string)
    : M World CategoryResult :=
  session <- getGReaderAuthAndToken c ;;
  listRes <-
    tryCatch
      (axios {| method := "GET";
                url := base session +++ "/reader/api/0/tag/list";
                headers := [("Authorization", "GoogleLogin auth=" +++ auth session)];
                form := [];
                params := [("output", "json")];
                validateStatus := None |})
      (fun err => throw (McpError InternalError
                           ("FreshRSS tag list failed: " +++ failureText err))) ;;
  let tags := JS.nullish (JS.optProp (Response.data listRes) "tags") (JS.Arr []) in
  let labelId := "user/-/label/" +++ categoryName in
  exists_ <- tagsSome tags (fun t => id <- prop t "id" ;;
                                     ret (JS.strictEquals id (JS.Str labelId))) ;;
  if (exists_ : bool)
  then ret {| created := false;
              message := "Category " +++ doubleQuote +++ categoryName +++ doubleQuote
                           +++ " already exists." |}
  else
    _ <- tryCatch
           (axios {| method := "POST";
                     url := base session +++ "/reader/api/0/subscription/edit";
                     headers := [("Authorization", "GoogleLogin auth=" +++ auth session);
                                 formUrlEncoded];
                     form := [("ac", "subscribe");
                              ("s", "feed/" +++ placeholderFeed);
                              ("a", labelId);
                              ("T", editToken session)];
                     params := [];
                     validateStatus := None |})
           (fun err => throw (McpError InternalError
                                ("FreshRSS create category failed: " +++ failureText err))) ;;
    ret {| created := true;
           message := "Category " +++ doubleQuote +++ categoryName +++ doubleQuote
                        +++ " created." |}.

(** ** The tool handler *)

(** The [try ... catch] around the [switch] of the handler: a protocol error
    passes, anything else is wrapped as an internal error. *)
Definition handleErrors {A} (body : M World A) : M World A :=
  tryCatch body
    (fun error =>
       if isMcpError error then throw error
       else throw (McpError InternalError (exnToString error))).

(** [case "get_unread"]. *)
Definition tool_get_unread (c : FreshRSSClient) : M World ToolResult :=
  handleErrors
    (response <- getUnreadItems c ;;
     ret {| text := JSON_stringify response 2 |}).

Definition sameFeed (numericFeedId : JS.number) (item : JS.value) : M World bool :=
  feed_id <- prop item "feed_id" ;;
  ret (String.eqb (JS.toString feed_id) (JS.toString (JS.Num numericFeedId))).

(** The body of [case "get_feed_items"] up to the value that is serialised. *)
Definition feedItemsResponse (c : FreshRSSClient) (arguments : JS.value) : M World JS.value :=
  feed_id <- prop arguments "feed_id" ;;
  response <- getFeedItems c feed_id ;;
  items <- prop response "items" ;;
  if JS.truthy items && JS.isArray items
  then
    let numericFeedId := JS.parseInt (JS.toString feed_id) in
    kept <- match items with
            | JS.Arr elems => filterM (sameFeed numericFeedId) elems
            | _ => ret []
            end ;;
    response <- setProp response "items" (JS.Arr kept) ;;
    total_items <- prop response "total_items" ;;
    if negb (JS.strictEquals total_items JS.Undefined)
    then setProp response "total_items" (JS.num (Z.of_nat (List.length kept)))
    else ret response
  else ret response.

(** [case "get_feed_items"]. *)
Definition tool_get_feed_items (c : FreshRSSClient) (arguments : JS.value)
    : M World ToolResult :=
  handleErrors
    (response <- feedItemsResponse c arguments ;;
     ret {| text := JSON_stringify response 2 |}).

End Client.

(* ================================================================== *)
(** * The other operations of the client, and the whole tool handler *)

Section Operations.

Context {World : Type}.
Context (server : World -> AxiosConfig -> ServerReply * World).
Context (JSON_stringify : JS.value -> Z -> JS.value).

(** What [Date.now()] returns during the call, in milliseconds. *)
Context (now : Z).

Definition getSubscriptions (c : FreshRSSClient) : M World JS.value :=
  request server c "" "GET" [("feeds", "")].

Definition getFeedGroups (c : FreshRSSClient) : M World JS.value :=
  request server c "" "GET" [("groups", "")].

(** The values of a [URLSearchParams] are converted to strings. *)
Definition markAsRead (c : FreshRSSClient) (itemId : JS.value) : M World JS.value :=
  request server c "" "POST"
    [("mark", "item"); ("id", JS.toString itemId); ("as", "read")].

Definition markAsUnread (c : FreshRSSClient) (itemId : JS.value) : M World JS.value :=
  request server c "" "POST"
    [("mark", "item"); ("id", JS.toString itemId); ("as", "unread")].

(** [before] is [Math.floor(Date.now() / 1000)]. *)
Definition markFeedAsRead (c : FreshRSSClient) (feedId : JS.value) : M World JS.value :=
  request server c "" "POST"
    [("mark", "feed"); ("id", JS.toString feedId); ("as", "read");
     ("before", JS.numberToString (JS.Int (now / 1000)))].

(** [itemIds.join(',')]: the method of an array, which joins as [String]
    does; reading it from [null] or [undefined] throws, and so does calling
    it on a value that has none. *)
Definition getItems (c : FreshRSSClient) (itemIds : JS.value) : M World JS.value :=
  match itemIds with
  | JS.Arr _ =>
      request server c "" "GET" [("items", ""); ("with_ids", JS.toString itemIds)]
  | JS.Undefined | JS.Null =>
      throw (TypeError ("Cannot read properties of " +++ JS.toString itemIds
                          +++ " (reading 'join')"))
  | _ => throw (TypeError "itemIds.join is not a function")
  end.

Definition unsubscribeFeed (c : FreshRSSClient) (feedId : JS.value) : M World unit :=
  session <- getGReaderAuthAndToken server c ;;
  let fid := JS.toString feedId in
  _ <- tryCatch
         (axios server
                {| method := "POST";
                   url := base session +++ "/reader/api/0/subscription/edit";
                   headers := [("Authorization", "GoogleLogin auth=" +++ auth session);
                               formUrlEncoded];
                   form := [("ac", "unsubscribe");
                            ("s", "feed/" +++ fid);
                            ("T", editToken session)];
                   params := [];
                   validateStatus := None |})
         (fun err => throw (McpError InternalError
                              ("FreshRSS unsubscribe failed: " +++ failureText err))) ;;
  ret tt.

(** The names of the tools the server announces, in the order of the list. *)
Definition toolNames : list string :=
  ["list_feeds"; "get_feed_groups"; "get_unread"; "get_feed_items";
   "mark_item_read"; "mark_item_unread"; "mark_feed_read"; "get_items";
   "unsubscribe_feed"; "create_category"; "subscribe_feed"].

(** The properties of a [subscribeFeed] result that [JSON.stringify] writes:
    it leaves out the ones whose value is [undefined]. *)
Definition writtenProps (r : SubscribeResult) : list (string * JS.value) :=
  filter (fun kv => negb (JS.strictEquals (snd kv) JS.Undefined))
         [("feedId", feedId r); ("title", title r);
          ("numResults", numResults r); ("error", error r)].

Definition textOf (s : string) : ToolResult := {| text := JS.Str s |}.

(** The [switch] of the handler of [CallToolRequestSchema], on the name of
    the tool.  Taking a field out of the arguments by destructuring is read
    as a property access: both throw a [TypeError] on [null] and
    [undefined], with texts that differ, and no statement fixes that text. *)
Definition toolCase (c : FreshRSSClient) (name : string) (arguments : JS.value)
    : M World ToolResult :=
  if String.eqb name "list_feeds" then
    response <- getSubscriptions c ;;
    ret {| text := JSON_stringify response 2 |}
  else if String.eqb name "get_feed_groups" then
    response <- getFeedGroups c ;;
    ret {| text := JSON_stringify response 2 |}
  else if String.eqb name "get_unread" then
    response <- getUnreadItems server c ;;
    ret {| text := JSON_stringify response 2 |}
  else if String.eqb name "get_feed_items" then
    response <- feedItemsResponse server c arguments ;;
    ret {| text := JSON_stringify response 2 |}
  else if String.eqb name "mark_item_read" then
    item_id <- prop arguments "item_id" ;;
    _ <- markAsRead c item_id ;;
    ret (textOf ("Successfully marked item " +++ JS.toString item_id +++ " as read"))
  else if String.eqb name "mark_item_unread" then
    item_id <- prop arguments "item_id" ;;
    _ <- markAsUnread c item_id ;;
    ret (textOf ("Successfully marked item " +++ JS.toString item_id +++ " as unread"))
  else if String.eqb name "mark_feed_read" then
    feed_id <- prop arguments "feed_id" ;;
    _ <- markFeedAsRead c feed_id ;;
    ret (textOf ("Successfully marked all items in feed " +++ JS.toString feed_id
                   +++ " as read"))
  else if String.eqb name "get_items" then
    item_ids <- prop arguments "item_ids" ;;
    items <- getItems c item_ids ;;
    ret {| text := JSON_stringify items 2 |}
  else if String.eqb name "unsubscribe_feed" then
    feed_id <- prop arguments "feed_id" ;;
    _ <- unsubscribeFeed c feed_id ;;
    ret (textOf ("Successfully unsubscribed from feed " +++ JS.toString feed_id))
  else if String.eqb name "create_category" then
    category_name <- prop arguments "category_name" ;;
    catResult <- createCategory server c (JS.toString category_name) ;;
    ret {| text := JSON_stringify
                     (JS.Obj [("created", JS.Bool (created catResult));
                              ("message", JS.Str (message catResult))]) 2 |}
  else if String.eqb name "subscribe_feed" then
    feed_url <- prop arguments "feed_url" ;;
    category_name <- prop arguments "category_name" ;;
    subResult <- subscribeFeed server JSON_stringify c (JS.toString feed_url) category_name ;;
    if JS.truthy (error subResult)
    then ret {| text := JSON_stringify
                          (JS.Obj [("success", JS.Bool false);
                                   ("error", error subResult)]) 2 |}
    else ret {| text := JSON_stringify
                          (JS.Obj (("success", JS.Bool true) :: writtenProps subResult)) 2 |}
  else throw (McpError MethodNotFound ("Unknown tool: " +++ name)).

Definition callTool (c : FreshRSSClient) (name : string) (arguments : JS.value)
    : M World ToolResult :=
  handleErrors (toolCase c name arguments).

End Operations.

(* ================================================================== *)
(** * A scripted service, for concrete runs *)

(** The service of a unit test: it answers the requests in order from a list
    of prepared replies, whatever they ask, and lets the connection drop
    once the list is used up. *)
Definition Script : Type := list ServerReply.

Definition scripted (remaining : Script) (config : AxiosConfig) : ServerReply * Script :=
  match remaining with
  | [] => (NoReply "Network Error", [])
  | reply :: rest => (reply, rest)
  end.

Definition start {World} (w : World) : Net World := {| world := w; log := [] |}.

(** Any serialiser will do where a run needs one. *)
Definition plainStringify (v : JS.value) (space : Z) : JS.value := JS.Str (JS.toString v).

(** A serialiser that hands the value on as it is, so that a run shows what
    is serialised. *)
Definition verbatim (v : JS.value) (space : Z) : JS.value := v.

Definition testClient : FreshRSSClient :=
  {| apiUrl := "https://rss.example.org";
     username := "alice";
     password := "secret";
     apiKey := "0123456789abcdef0123456789abcdef" |}.

Definition feverItem (id : string) (feed_id is_read : Z) : JS.value :=
  JS.Obj [("id", JS.Str id); ("feed_id", JS.num feed_id); ("title", JS.Str "t");
          ("html", JS.Str ""); ("url", JS.Str "u"); ("is_saved", JS.num 0);
          ("is_read", JS.num is_read); ("created_on_time", JS.num 1700000000)].

Definition feverEnvelope (payload : list (string * JS.value)) : JS.value :=
  JS.Obj ([("api_version", JS.num 3); ("auth", JS.num 1);
           ("last_refreshed_on_time", JS.num 1700000123)] ++ payload).

Definition newline : string := String (ascii_of_nat 10) EmptyString.

(** A login body with the token on its own line, and an answer to the
    request for the edit token with white space around and inside. *)
Definition loginBody : string :=
  "SID=alice/1" +++ newline +++ "Auth=abc123" +++ newline.

Definition sessionScript : Script :=
  [Reply 200 (JS.Str loginBody);
   Reply 200 (JS.Str (" edit" +++ newline +++ "Token " +++ newline))].

(** A login body where [Auth=] also ends the name of an earlier field. *)
Definition shadowedLoginBody : string :=
  "XAuth=bad" +++ newline +++ "Auth=abc123" +++ newline.

Definition shadowedScript : Script :=
  [Reply 200 (JS.Str shadowedLoginBody); Reply 200 (JS.Str "editToken")].




(** The answer to a request for feed 42 that also holds an item of feed 43. *)
Definition feedScript : Script :=
  [Reply 200 (feverEnvelope
                [("total_items", JS.num 3);
                 ("items", JS.Arr [feverItem "1" 42 0; feverItem "2" 43 0;
                                   feverItem "3" 42 1])])].


(** Ids 1, 2, 3; items 1 and 3 unread, item 2 already read. *)
Definition unreadScript : Script :=
  [Reply 200 (feverEnvelope [("unread_item_ids", JS.Str "1,2,3")]);
   Reply 200 (feverEnvelope
                [("items", JS.Arr [feverItem "1" 7 0; feverItem "2" 7 1; feverItem "3" 8 0])])].




(** A batch response with a [null] among its items. *)
Definition nullItemScript : Script :=
  [Reply 200 (feverEnvelope [("unread_item_ids", JS.Str "1,2")]);
   Reply 200 (feverEnvelope [("items", JS.Arr [feverItem "1" 7 0; JS.Null])])].

(** The ids 1 to 60, as strings. *)
Definition sixtyIds : list string :=
  map (fun k => JS.numberToString (JS.Int (Z.of_nat k))) (seq 1 60).

(** The acknowledgement of a request that asks for nothing back. *)
Definition acknowledgedScript : Script := [Reply 200 (feverEnvelope [])].

(** A login that is refused. *)
Definition refusedLoginScript : Script := [Reply 401 (JS.Str "Unauthorized")].



(** A session, then the plain acknowledgement of a subscription edit. *)
Definition acceptedEditScript : Script :=
  sessionScript ++ [Reply 200 (JS.Str "OK")].

(** A response to a request for items that carries a count and no list. *)
Definition countOnlyScript : Script :=
  [Reply 200 (feverEnvelope [("total_items", JS.num 3)])].

(* ================================================================== *)
(** * Vocabulary of the statements *)

(** A reply that [request] accepts: a status in the 2xx range and a body
    with a truthy [api_version]. *)
Definition feverSuccess (reply : ServerReply) : bool :=
  match reply with
  | Reply status data =>
      defaultValidateStatus status && JS.truthy (JS.optProp data "api_version")
  | NoReply _ => false
  end.

Definition succeeded (reply : ServerReply) : Prop := feverSuccess reply = true.

(** A reply with a status in the 2xx range, whatever the body. *)
Definition replied2xx (reply : ServerReply) : bool :=
  match reply with
  | Reply status _ => defaultValidateStatus status
  | NoReply _ => false
  end.

Definition replyData (reply : ServerReply) : JS.value :=
  match reply with
  | Reply _ data => data
  | NoReply _ => JS.Undefined
  end.

(** The items a response body carries: the elements of its [items] array,
    none when there is no such array. *)
Definition fetchedItems (data : JS.value) : list JS.value :=
  match JS.optProp data "items" with
  | JS.Arr elems => elems
  | _ => []
  end.

Definition fetchedBy (replies : list ServerReply) : list JS.value :=
  flat_map (fun reply => fetchedItems (replyData reply)) replies.

(** An item whose [is_read] field is the number 0. *)
Definition isReadZero (item : JS.value) : bool :=
  JS.strictEquals (JS.optProp item "is_read") (JS.num 0).

(** An item of feed [n]: its [feed_id] field is that number. *)
Definition ofFeed (n : JS.number) (item : JS.value) : bool :=
  JS.strictEquals (JS.optProp item "feed_id") (JS.Num n).


(** A value one can read properties from: anything but [null] and
    [undefined].  The elements of [FreshRSSItem[]] and of the tag list are
    declared as objects. *)
Definition readable (v : JS.value) : Prop := JS.isNullish v = false.

(** [before] holds no [Auth=] followed by a character other than white
    space: the pattern of the login step finds nothing in it. *)
Definition quietBefore (before : string) : Prop :=
  forall a c b, before = a +++ "Auth=" +++ String c b -> JS.isWhiteSpace c = true.



(** A computation that sends nothing: it leaves the service and the log as
    they are, whether it returns or throws. *)
Definition stateless {World A} (m : M World A) : Prop :=
  forall st, snd (m st) = st.

(** An item typed as [FreshRSSItem] declares it, as far as the feed filter
    looks: an object whose [feed_id] is a number. *)
Definition hasNumericFeedId (item : JS.value) : Prop :=
  readable item /\ exists z, JS.optProp item "feed_id" = JS.num z.

(** The envelope [getUnreadItems] is to return: the three header fields of
    the id-list response, the number of items, the items. *)
Definition unreadEnvelope (idsData : JS.value) (items : list JS.value) : JS.value :=
  JS.Obj [("api_version", JS.optProp idsData "api_version");
          ("auth", JS.optProp idsData "auth");
          ("last_refreshed_on_time", JS.optProp idsData "last_refreshed_on_time");
          ("total_items", JS.num (Z.of_nat (List.length items)));
          ("items", JS.Arr items)].

(** How [request] reports a reply it does not accept: the internal error of
    the protocol when the library rejected the exchange, a plain [Error] when
    the body lacks its version marker. *)
Definition requestFailure (reply : ServerReply) (e : Exn) : Prop :=
  if replied2xx reply
  then e = Error "Invalid API response"
  else exists message, e = McpError InternalError message.

(** The characters of [s] that are not white space, in order. *)
Definition withoutWhiteSpace (s : string) : string :=
  string_of_list_ascii
    (filter (fun c => negb (JS.isWhiteSpace c)) (list_ascii_of_string s)).

Definition noWhiteSpace (s : string) : Prop :=
  Forall (fun c => JS.isWhiteSpace c = false) (list_ascii_of_string s).

(** [p] occurs in [s]. *)
Definition occursIn (p s : string) : Prop :=
  exists before after, s = before +++ p +++ after.

(** [s] is empty or ends with a line feed: what follows starts a line. *)
Definition endsLine (s : string) : Prop :=
  s = EmptyString \/ exists before, s = before +++ newline.

(** [s] is empty or begins with a line feed: what precedes ends a line. *)
Definition startsLine (s : string) : Prop :=
  s = EmptyString \/ exists after, s = newline +++ after.

(** ** Further vocabulary: the requests of the operations *)

(** The one request of the simple protocol, for the extra fields [data]. *)
Definition feverRequest (c : FreshRSSClient) (data : list (string * string)) : AxiosConfig :=
  {| method := "POST";
     url := apiUrl c +++ "/api/fever.php";
     headers := [formUrlEncoded];
     form := ("api_key", apiKey c) :: data;
     params := [];
     validateStatus := None |}.

(** The request for the items of one batch of ids. *)
Definition batchRequest (c : FreshRSSClient) (batch : list string) : AxiosConfig :=
  feverRequest c [("items", ""); ("with_ids", JS.join "," batch)].

(** The ids [getUnreadItems] reads in the body of the id-list response. *)
Definition unreadIdsOf (data : JS.value) : list string :=
  filter (fun s => JS.truthy (JS.Str s))
         (map JS.trim
              (JS.split ","
                 (JS.toString (JS.or (JS.optProp data "unread_item_ids") (JS.Str ""))))).

(** An id as the service writes it in a comma-separated list: not empty, no
    comma, no white space. *)
Definition plainId (id : string) : Prop :=
  id <> EmptyString /\ noWhiteSpace id /\
  Forall (fun ch => Ascii.eqb ch "," = false) (list_ascii_of_string id).

(** The two requests of the session establishment. *)
Definition loginRequest (c : FreshRSSClient) : AxiosConfig :=
  {| method := "POST";
     url := (JS.removeTrailingSlash (apiUrl c) +++ "/api/greader.php")
              +++ "/accounts/ClientLogin";
     headers := [formUrlEncoded];
     form := [("Email", username c); ("Passwd", password c)];
     params := [];
     validateStatus := None |}.

Definition tokenRequest (c : FreshRSSClient) (token : string) : AxiosConfig :=
  {| method := "GET";
     url := (JS.removeTrailingSlash (apiUrl c) +++ "/api/greader.php")
              +++ "/reader/api/0/token";
     headers := [("Authorization", "GoogleLogin auth=" +++ token)];
     form := [];
     params := [];
     validateStatus := None |}.

(** The subscription-edit requests of [subscribeFeed] and [unsubscribeFeed]. *)
Definition subscriptionEdit (session : Session) (fields : list (string * string))
    (anyStatus : bool) : AxiosConfig :=
  {| method := "POST";
     url := base session +++ "/reader/api/0/subscription/edit";
     headers := [("Authorization", "GoogleLogin auth=" +++ auth session);
                 formUrlEncoded];
     form := fields;
     params := [];
     validateStatus := if anyStatus then Some (fun _ => true) else None |}.

(** A computation whose exceptions all satisfy [P]. *)
Definition throwsOnly {World A} (P : Exn -> Prop) (m : M World A) : Prop :=
  forall st e st', m st = (Throw e, st') -> P e.

(** Any exception but the one for an unknown tool. *)
Definition knownTool (e : Exn) : Prop :=
  forall text, e <> McpError MethodNotFound text.

(** An integer that a JavaScript number holds exactly, and that prints as
    its decimal digits: at most [Number.MAX_SAFE_INTEGER] in size. *)
Definition safeInteger (z : Z) : Prop := Z.abs z <= 9007199254740991.

(** A number as [parseInt] and [String] treat it exactly: [NaN], or an
    integer of that range. *)
Definition safeNumber (n : JS.number) : Prop :=
  match n with
  | JS.NaN => True
  | JS.Int z => safeInteger z
  end.

(** The number a string of decimal digits, kept as a [Decimal.uint], stands
    for, after the digits already read. *)
Fixpoint uintValue (acc : Z) (d : Decimal.uint) : Z :=
  match d with
  | Decimal.Nil => acc
  | Decimal.D0 d => uintValue (10 * acc + 0) d
  | Decimal.D1 d => uintValue (10 * acc + 1) d
  | Decimal.D2 d => uintValue (10 * acc + 2) d
  | Decimal.D3 d => uintValue (10 * acc + 3) d
  | Decimal.D4 d => uintValue (10 * acc + 4) d
  | Decimal.D5 d => uintValue (10 * acc + 5) d
  | Decimal.D6 d => uintValue (10 * acc + 6) d
  | Decimal.D7 d => uintValue (10 * acc + 7) d
  | Decimal.D8 d => uintValue (10 * acc + 8) d
  | Decimal.D9 d => uintValue (10 * acc + 9) d
  end.

(* ================================================================== *)
(** * Properties of [chunkArray] *)

Section ChunkArray.

Context {T : Type}.

Lemma chunkLoop_step (arr : list T) n (pos : 0 < n) i out :
  chunkLoop arr n pos i out =
  if i <? Z.of_nat (List.length arr)
  then chunkLoop arr n pos (i + n) (out ++ [slice arr i (i + n)])
  else out.
Proof.
  rewrite (chunkLoop_equation_1 T arr n pos i out).
  destruct (Z_lt_dec i (Z.of_nat (List.length arr))) as [lt | ge]; simpl.
  - apply Z.ltb_lt in lt. now rewrite lt.
  - apply Z.ltb_nlt in ge. now rewrite ge.
Qed.

(** A slice taken by the loop: the next [n] elements, or what is left. *)
Lemma slice_in_loop (arr : list T) n i :
  0 < n -> 0 <= i < Z.of_nat (List.length arr) ->
  slice arr i (i + n) =
  firstn (Z.to_nat n) (skipn (Z.to_nat i) arr).
Proof.
  intros pos range. unfold slice.
  destruct (i <? 0) eqn:neg; [apply Z.ltb_lt in neg; lia |].
  destruct (i + n <? 0) eqn:neg'; [apply Z.ltb_lt in neg'; lia |].
  rewrite (Z.min_l i) by lia.
  destruct (Z.le_ge_cases (i + n) (Z.of_nat (List.length arr))) as [fits | over].
  - rewrite Z.min_l by lia. f_equal. lia.
  - rewrite Z.min_r by lia.
    rewrite !firstn_all2; trivial; rewrite length_skipn; lia.
Qed.

Lemma chunkLoop_spec (arr : list T) n (pos : 0 < n) :
  forall (fuel : nat) i out,
    0 <= i ->
    (Z.to_nat (Z.of_nat (List.length arr) - i) <= fuel)%nat ->
    exists batches,
      chunkLoop arr n pos i out = out ++ batches /\
      List.concat batches = skipn (Z.to_nat i) arr /\
      Z.of_nat (List.length batches)
        = (Z.max 0 (Z.of_nat (List.length arr) - i) + n - 1) / n /\
      (forall k, (k + 1 < List.length batches)%nat ->
                 Z.of_nat (List.length (nth k batches [])) = n) /\
      (forall b, In b batches -> 1 <= Z.of_nat (List.length b) <= n).
Proof.
  assert (done : forall i out,
             Z.of_nat (List.length arr) <= i ->
             exists batches,
               out = out ++ batches /\
               List.concat batches = skipn (Z.to_nat i) arr /\
               Z.of_nat (List.length batches)
                 = (Z.max 0 (Z.of_nat (List.length arr) - i) + n - 1) / n /\
               (forall k, (k + 1 < List.length batches)%nat ->
                          Z.of_nat (List.length (nth k batches [])) = n) /\
               (forall b, In b batches -> 1 <= Z.of_nat (List.length b) <= n)).
  { intros i out past. exists []. rewrite app_nil_r.
    split; [reflexivity |]. split; [| split; [| split]].
    - rewrite skipn_all2 by lia. reflexivity.
    - rewrite Z.max_l by lia. symmetry. apply Z.div_small. lia.
    - intros k bound. simpl in bound. lia.
    - intros b []. }
  induction fuel as [| fuel IH]; intros i out nonneg enough;
    rewrite chunkLoop_step;
    destruct (i <? Z.of_nat (List.length arr)) eqn:more;
    try (apply Z.ltb_lt in more); try (apply Z.ltb_ge in more);
    try lia; try (now apply done).
  destruct (IH (i + n) (out ++ [slice arr i (i + n)])) as
    (rest & run & cat & count & full & sizes); try lia.
  exists (slice arr i (i + n) :: rest).
  rewrite run, <- app_assoc. split; [reflexivity |].
  rewrite slice_in_loop by lia.
  assert (len_chunk :
            Z.of_nat (List.length (firstn (Z.to_nat n) (skipn (Z.to_nat i) arr)))
            = Z.min n (Z.of_nat (List.length arr) - i)).
  { rewrite length_firstn, length_skipn. lia. }
  split; [| split; [| split]].
  - simpl. rewrite cat.
    replace (Z.to_nat (i + n)) with (Z.to_nat n + Z.to_nat i)%nat by lia.
    rewrite <- skipn_skipn. apply firstn_skipn.
  - simpl List.length. rewrite Nat2Z.inj_succ, count.
    destruct (Z.le_gt_cases n (Z.of_nat (List.length arr) - i)) as [fits | last].
    + rewrite !Z.max_r by lia.
      replace (Z.of_nat (List.length arr) - i + n - 1)
        with (Z.of_nat (List.length arr) - (i + n) + n - 1 + 1 * n) by lia.
      rewrite Z.div_add by lia. lia.
    + rewrite Z.max_l by lia. rewrite Z.max_r by lia.
      rewrite (Z.div_small (0 + n - 1)) by lia.
      apply Z.div_unique with (r := Z.of_nat (List.length arr) - i - 1); lia.
  - intros [| k] bound; simpl in *.
    + rewrite len_chunk.
      destruct rest as [| b rest']; [simpl in bound; lia |].
      destruct (Z.le_gt_cases n (Z.of_nat (List.length arr) - i)) as [fits | last];
        [lia |].
      exfalso. rewrite Z.max_l in count by lia.
      rewrite Z.div_small in count by lia. simpl in count. lia.
    + apply full. lia.
  - intros b [<- | inrest]; [rewrite len_chunk; lia | now apply sizes].
Qed.

Lemma chunkArray_positive (arr : list T) n :
  0 < n ->
  exists pos, chunkArray arr n = chunkLoop arr n pos 0 [].
Proof.
  intros pos. unfold chunkArray.
  destruct (Z_le_dec n 0) as [le | gt]; [lia |]. eauto.
Qed.

Lemma chunkArray_spec (arr : list T) n :
  0 < n ->
  List.concat (chunkArray arr n) = arr /\
  Z.of_nat (List.length (chunkArray arr n)) = (Z.of_nat (List.length arr) + n - 1) / n /\
  (forall k, (k + 1 < List.length (chunkArray arr n))%nat ->
             Z.of_nat (List.length (nth k (chunkArray arr n) [])) = n) /\
  (forall b, In b (chunkArray arr n) -> 1 <= Z.of_nat (List.length b) <= n).
Proof.
  intros pos. destruct (chunkArray_positive arr n pos) as [pos' ->].
  destruct (chunkLoop_spec arr n pos' (List.length arr) 0 []) as
    (batches & run & cat & count & full & sizes); try lia.
  rewrite run. simpl. split; [exact cat |].
  split; [rewrite count; f_equal; lia |]. split; assumption.
Qed.

End ChunkArray.

(** C2.  With the batch size 50 of [getUnreadItems], [chunkArray] cuts an id
    sequence of length N into consecutive batches: the batches put end to end
    are the sequence itself (nothing lost, repeated or moved), every batch
    before the last one has exactly 50 elements, and there are ceil(N/50)
    batches, that is, the one count with 50*(count-1) < N <= 50*count. *)
Theorem chunkArray_50_partitions {T : Type} (ids : list T) :
  let batches := chunkArray ids 50 in
  let N := Z.of_nat (List.length ids) in
  let count := Z.of_nat (List.length batches) in
  List.concat batches = ids /\
  (forall k, (k + 1 < List.length batches)%nat ->
             List.length (nth k batches []) = 50%nat) /\
  count = (N + 49) / 50 /\
  50 * (count - 1) < N <= 50 * count.
Proof.
  intros batches N count.
  destruct (chunkArray_spec ids 50) as (cat & number & full & sizes); [lia |].
  fold batches in cat, number, full, sizes. fold N count in number.
  replace (N + 50 - 1) with (N + 49) in number by lia.
  split; [exact cat |]. split; [| split; [exact number |]].
  - intros k bound. specialize (full k bound). lia.
  - rewrite number.
    pose proof (Z.div_mod (N + 49) 50) as dm.
    pose proof (Z.mod_pos_bound (N + 49) 50) as bound. lia.
Qed.

(** C9.  For a chunk size that is zero or negative, [chunkArray] returns the
    one batch [[arr]]: the whole array, unchanged, and the loop is never
    entered. *)
Theorem chunkArray_nonpositive_size {T : Type} (arr : list T) (chunkSize : Z) :
  chunkSize <= 0 -> chunkArray arr chunkSize = [arr].
Proof.
  intros nonpos. unfold chunkArray.
  destruct (Z_le_dec chunkSize 0) as [le | gt]; [reflexivity | lia].
Qed.

Lemma chunkArray_nonpositive_size_witness :
  -5 <= 0 /\ chunkArray ["7"; "8"; "9"] (-5) = [["7"; "8"; "9"]].
Proof.
  split; [lia |].
  apply (chunkArray_nonpositive_size ["7"; "8"; "9"] (-5)). lia.
Defined.

Example chunkArray_120_ids :
  map (@List.length nat) (chunkArray (seq 0 120) 50) = [50; 50; 20]%nat.
Proof. vm_compute. reflexivity. Qed.

(* ================================================================== *)
(** * Running the monad *)

Section Running.

Context {World : Type}.

Lemma bind_return {A B} (m : M World A) (k : A -> M World B) st a st' :
  m st = (Return a, st') -> bind m k st = k a st'.
Proof. unfold bind. now intros ->. Qed.

Lemma bind_throw {A B} (m : M World A) (k : A -> M World B) st e st' :
  m st = (Throw e, st') -> bind m k st = (Throw e, st').
Proof. unfold bind. now intros ->. Qed.

Lemma tryCatch_return {A} (m : M World A) handler st a st' :
  m st = (Return a, st') -> tryCatch m handler st = (Return a, st').
Proof. unfold tryCatch. now intros ->. Qed.

Lemma tryCatch_throw {A} (m : M World A) handler st e st' :
  m st = (Throw e, st') -> tryCatch m handler st = handler e st'.
Proof. unfold tryCatch. now intros ->. Qed.

Lemma bind_ret {A B} (a : A) (k : A -> M World B) st : bind (ret a) k st = k a st.
Proof. reflexivity. Qed.

Lemma bind_thrown {A B} e (k : A -> M World B) st :
  bind (throw e) k st = (Throw e, st).
Proof. reflexivity. Qed.

Lemma prop_object props k (st : Net World) :
  prop (JS.Obj props) k st = (Return (JS.lookup k props), st).
Proof. reflexivity. Qed.

Lemma prop_readable v k (st : Net World) :
  readable v -> prop v k st = (Return (JS.optProp v k), st).
Proof. unfold prop, readable. now intros ->. Qed.

End Running.

(* ================================================================== *)
(** * The simple protocol *)

Section SimpleProtocol.

Context {World : Type}.
Context (server : World -> AxiosConfig -> ServerReply * World).
Context (JSON_stringify : JS.value -> Z -> JS.value).

Lemma truthy_optProp_object data k :
  JS.truthy (JS.optProp data k) = true -> exists props, data = JS.Obj props.
Proof.
  destruct data; simpl; try discriminate. eauto.
Qed.

(** One call of [request]: one exchange is logged, and the outcome is
    decided by the reply alone. *)
Lemma request_run c endpoint method data (st : Net World) :
  exists config reply w res,
    form config = ("api_key", apiKey c) :: data /\
    server (world st) config = (reply, w) /\
    request server c endpoint method data st
      = (res, {| world := w; log := log st ++ [(config, reply)] |}) /\
    (feverSuccess reply = true ->
       res = Return (replyData reply) /\ exists props, replyData reply = JS.Obj props) /\
    (feverSuccess reply = false -> exists e, res = Throw e /\ requestFailure reply e).
Proof.
  unfold request, tryCatch, bind, axios.
  match goal with |- context [server (world st) ?cfg] => set (config := cfg) end.
  destruct (server (world st) config) as [reply w] eqn:answer.
  exists config, reply, w.
  destruct reply as [status body | message]; unfold requestFailure; simpl;
    [unfold acceptsStatus; simpl;
     destruct (defaultValidateStatus status) eqn:ok; simpl;
     [destruct (JS.truthy (JS.optProp body "api_version")) eqn:version; simpl |] |];
    (eexists; split; [reflexivity |]; split; [exact answer |];
     split; [unfold throw; reflexivity |];
     split; intros decided; try discriminate decided).
  - split; [reflexivity |]. now apply truthy_optProp_object in version.
  - eauto.
  - eauto.
  - eauto.
Qed.

Lemma push_items acc items :
  (if JS.truthy items && JS.isArray items
   then match items with JS.Arr elems => acc ++ elems | _ => acc end
   else acc)
  = acc ++ match items with JS.Arr elems => elems | _ => [] end.
Proof.
  destruct items; simpl; rewrite ?app_nil_r, ?andb_false_r; reflexivity.
Qed.




Lemma isUnread_state item (st : Net World) : snd (isUnread item st) = st.
Proof.
  unfold isUnread, bind, prop. now destruct (JS.isNullish item).
Qed.









End SimpleProtocol.




(* ================================================================== *)
(** * Numbers as text, and objects *)

Section NumbersAndObjects.

Lemma to_int_proper z :
  Z.to_int z <> Decimal.Pos Decimal.Nil /\ Z.to_int z <> Decimal.Neg Decimal.Nil.
Proof.
  destruct z as [| p | p]; simpl; split; try discriminate;
    intros [= nil]; now apply (Unsigned.to_uint_nonnil p).
Qed.

Lemma numberToString_parses z :
  NilZero.int_of_string (JS.numberToString (JS.Int z)) = Some (Z.to_int z).
Proof.
  destruct (to_int_proper z). now apply NilZero.isi.
Qed.

(** Two integers print alike only when they are equal, and none prints as
    [NaN]. *)
Lemma numberToString_eqb z n :
  String.eqb (JS.numberToString (JS.Int z)) (JS.numberToString n)
  = JS.strictEquals (JS.num z) (JS.Num n).
Proof.
  destruct n as [| m]; simpl JS.strictEquals.
  - apply String.eqb_neq. intros same.
    pose proof (numberToString_parses z) as parsed.
    rewrite same in parsed. discriminate.
  - destruct (Z.eqb_spec z m) as [-> | different].
    + apply String.eqb_refl.
    + apply String.eqb_neq. intros same. apply different.
      apply to_int_inj. pose proof (numberToString_parses z) as parsed.
      rewrite same, numberToString_parses in parsed. congruence.
Qed.

Lemma lookup_assign_same k v props : JS.lookup k (JS.assign k v props) = v.
Proof.
  induction props as [| [k' v'] props IH]; simpl.
  - now rewrite String.eqb_refl.
  - destruct (String.eqb k k') eqn:same; simpl; rewrite ?String.eqb_refl, ?same; trivial.
Qed.

Lemma lookup_assign_other k k' v props :
  k <> k' -> JS.lookup k (JS.assign k' v props) = JS.lookup k props.
Proof.
  intros different. apply String.eqb_neq in different.
  induction props as [| [k'' v''] props IH]; simpl.
  - now rewrite different.
  - destruct (String.eqb k' k'') eqn:same; simpl.
    + apply String.eqb_eq in same as <-. now rewrite different.
    + now rewrite IH.
Qed.

End NumbersAndObjects.

(* ================================================================== *)
(** * The tool [get_feed_items] *)

Section FeedItems.

Context {World : Type}.
Context (server : World -> AxiosConfig -> ServerReply * World).
Context (JSON_stringify : JS.value -> Z -> JS.value).

Lemma stateless_ret {A} (a : A) : stateless (World := World) (ret a).
Proof. intros st. reflexivity. Qed.

Lemma stateless_throw {A} e : stateless (World := World) (A := A) (throw e).
Proof. intros st. reflexivity. Qed.

Lemma stateless_bind {A B} (m : M World A) (k : A -> M World B) :
  stateless m -> (forall a, stateless (k a)) -> stateless (bind m k).
Proof.
  intros first then_ st. unfold bind. specialize (first st).
  destruct (m st) as [[a | e] st']; simpl in first; subst st'; [apply then_ | reflexivity].
Qed.

Lemma stateless_prop v k : stateless (World := World) (prop v k).
Proof. unfold prop. destruct (JS.isNullish v); [apply stateless_throw | apply stateless_ret]. Qed.

Lemma stateless_setProp v k x : stateless (World := World) (setProp v k x).
Proof. destruct v; simpl; (apply stateless_throw || apply stateless_ret). Qed.

Lemma stateless_filterM {A} (f : A -> M World bool) items :
  (forall x, stateless (f x)) -> stateless (filterM f items).
Proof.
  intros pure. induction items as [| x rest IH]; simpl; [apply stateless_ret |].
  apply stateless_bind; [apply pure | intros keep].
  apply stateless_bind; [exact IH | intros kept; apply stateless_ret].
Qed.

Lemma stateless_sameFeed n item : stateless (World := World) (sameFeed n item).
Proof.
  apply stateless_bind; [apply stateless_prop | intros; apply stateless_ret].
Qed.

(** After a first step, a tail that sends nothing leaves the state where
    the first step left it. *)
Lemma bind_stateless {A B} (m : M World A) (k : A -> M World B) st :
  (forall a, stateless (k a)) -> snd (bind m k st) = snd (m st).
Proof.
  intros pure. unfold bind. destruct (m st) as [[a | e] st']; [apply pure | reflexivity].
Qed.

Lemma filterM_sameFeed n items (st : Net World) :
  Forall hasNumericFeedId items ->
  filterM (sameFeed n) items st = (Return (filter (ofFeed n) items), st).
Proof.
  induction 1 as [| item rest [ok [z typed]] _ IH]; simpl; [reflexivity |].
  assert (first : sameFeed n item st = (Return (ofFeed n item), st)).
  { unfold sameFeed. rewrite (bind_return _ _ _ _ _ (prop_readable _ _ _ ok)).
    unfold ofFeed. rewrite typed. unfold ret.
    change (JS.toString (JS.num z)) with (JS.numberToString (JS.Int z)).
    change (JS.toString (JS.Num n)) with (JS.numberToString n).
    now rewrite numberToString_eqb. }
  rewrite (bind_return _ _ _ _ _ first), (bind_return _ _ _ _ _ IH). reflexivity.
Qed.

Ltac settle_stateless :=
  repeat first
    [ apply stateless_ret | apply stateless_throw | apply stateless_prop
    | apply stateless_setProp
    | apply stateless_filterM; intros; apply stateless_sameFeed
    | apply stateless_bind
    | match goal with |- forall _, _ => intro end
    | match goal with |- stateless (if ?b then _ else _) => destruct b end
    | match goal with |- stateless (match ?x with _ => _ end) => destruct x end ].

Lemma differs_from_undefined v :
  negb (JS.strictEquals v JS.Undefined) = false <-> v = JS.Undefined.
Proof.
  destruct v as [| | b | [| z] | s | elems | props]; simpl; split;
    intros; congruence.
Qed.

(** What the handler of [get_feed_items] does with the response sends
    nothing: the state after it is the one its request left. *)
Lemma feedItemsResponse_state c arguments (st : Net World) :
  readable arguments ->
  snd (feedItemsResponse server c arguments st)
  = snd (getFeedItems server c (JS.optProp arguments "feed_id") st).
Proof.
  intros object. unfold feedItemsResponse.
  rewrite (bind_return _ _ _ _ _ (prop_readable _ _ _ object)).
  apply bind_stateless. settle_stateless.
Qed.

End FeedItems.

(* ================================================================== *)
(** * Strings: trimming, white space, and the [Auth=] pattern *)

Section Strings.

Lemma append_empty_r s : s +++ EmptyString = s.
Proof. induction s as [| c s IH]; simpl; [reflexivity | now rewrite IH]. Qed.

Lemma append_associative a b c : (a +++ b) +++ c = a +++ b +++ c.
Proof. induction a as [| x a IH]; simpl; [reflexivity | now rewrite IH]. Qed.

Lemma noWhiteSpace_cons c s :
  noWhiteSpace (String c s) <-> JS.isWhiteSpace c = false /\ noWhiteSpace s.
Proof.
  unfold noWhiteSpace. simpl. split.
  - intros all. inversion all; subst. now split.
  - intros [this rest]. now constructor.
Qed.

(** ** [trim] and [replace(/\s/g, '')] *)

Lemma trimStart_noWhiteSpace s : noWhiteSpace s -> JS.trimStart s = s.
Proof.
  destruct s as [| c s]; [reflexivity |].
  intros clean. apply noWhiteSpace_cons in clean as [this _].
  simpl. now rewrite this.
Qed.

Lemma trimEnd_noWhiteSpace s : noWhiteSpace s -> JS.trimEnd s = s.
Proof.
  induction s as [| c s IH]; [reflexivity |].
  intros clean. apply noWhiteSpace_cons in clean as [this rest].
  simpl. rewrite (IH rest), this. now destruct s.
Qed.

Lemma trim_noWhiteSpace s : noWhiteSpace s -> JS.trim s = s.
Proof.
  intros clean. unfold JS.trim.
  rewrite trimStart_noWhiteSpace by assumption. now apply trimEnd_noWhiteSpace.
Qed.

Lemma removeWhiteSpace_filter s : JS.removeWhiteSpace s = withoutWhiteSpace s.
Proof.
  unfold withoutWhiteSpace.
  induction s as [| c s IH]; simpl; [reflexivity |].
  destruct (JS.isWhiteSpace c); simpl; now rewrite IH.
Qed.

Lemma removeWhiteSpace_trimStart s :
  JS.removeWhiteSpace (JS.trimStart s) = JS.removeWhiteSpace s.
Proof.
  induction s as [| c s IH]; simpl; [reflexivity |].
  destruct (JS.isWhiteSpace c) eqn:ws; [exact IH |].
  simpl. now rewrite ws.
Qed.

Lemma removeWhiteSpace_trimEnd s :
  JS.removeWhiteSpace (JS.trimEnd s) = JS.removeWhiteSpace s.
Proof.
  induction s as [| c s IH]; simpl; [reflexivity |].
  destruct (JS.trimEnd s) as [| d r] eqn:tail.
  - simpl in IH. rewrite <- IH.
    destruct (JS.isWhiteSpace c) eqn:ws; simpl; now rewrite ?ws.
  - simpl. simpl in IH. now rewrite IH.
Qed.

(** Trimming first changes nothing once every white space goes. *)
Lemma removeWhiteSpace_trim s :
  JS.removeWhiteSpace (JS.trim s) = withoutWhiteSpace s.
Proof.
  unfold JS.trim.
  now rewrite removeWhiteSpace_trimEnd, removeWhiteSpace_trimStart,
    removeWhiteSpace_filter.
Qed.

(** ** The capturing group *)

Lemma span_noWhiteSpace s : noWhiteSpace (fst (JS.span nonSpace s)).
Proof.
  induction s as [| c s IH]; simpl; [constructor |].
  unfold nonSpace at 1. destruct (JS.isWhiteSpace c) eqn:ws; simpl; [constructor |].
  destruct (JS.span nonSpace s) as [a b]. simpl in *.
  apply noWhiteSpace_cons. now split.
Qed.

(** A run without white space that ends the string or is followed by white
    space is what the group takes. *)
Lemma span_token token rest :
  noWhiteSpace token ->
  (rest = EmptyString \/ exists c r, rest = String c r /\ JS.isWhiteSpace c = true) ->
  JS.span nonSpace (token +++ rest) = (token, rest).
Proof.
  intros clean stop. induction token as [| c token IH]; simpl.
  - destruct stop as [-> | (c & r & -> & ws)]; [reflexivity |].
    simpl. unfold nonSpace. now rewrite ws.
  - apply noWhiteSpace_cons in clean as [this others].
    unfold nonSpace at 1. rewrite this. simpl. now rewrite (IH others).
Qed.

(** ** The pattern [/Auth=([^\s\n]+)/] *)

Lemma stripPrefix_append p s : JS.stripPrefix p (p +++ s) = Some s.
Proof.
  induction p as [| a p IH]; simpl; [now destruct s |].
  now rewrite Ascii.eqb_refl.
Qed.

Lemma stripPrefix_Some p : forall s r, JS.stripPrefix p s = Some r -> s = p +++ r.
Proof.
  induction p as [| a p IH]; intros s r; simpl.
  - destruct s; now intros [= ->].
  - destruct s as [| b s]; [discriminate |].
    destruct (Ascii.eqb a b) eqn:same; [| discriminate].
    apply Ascii.eqb_eq in same as ->. intros found. now rewrite (IH _ _ found).
Qed.

Lemma matchAuth_step s :
  matchAuth s =
  match matchAuthHere s with
  | Some group => Some group
  | None => match s with
            | EmptyString => None
            | String _ r => matchAuth r
            end
  end.
Proof. destruct s; reflexivity. Qed.

Lemma matchAuthHere_Some s group :
  matchAuthHere s = Some group ->
  exists rest, s = "Auth=" +++ rest /\ group = fst (JS.span nonSpace rest)
               /\ group <> EmptyString.
Proof.
  unfold matchAuthHere.
  destruct (JS.stripPrefix "Auth=" s) as [rest |] eqn:prefix; [| discriminate].
  apply stripPrefix_Some in prefix.
  destruct (fst (JS.span nonSpace rest)) as [| c g] eqn:run; [discriminate |].
  intros [= <-]. exists rest. rewrite run. repeat split; trivial. discriminate.
Qed.

Lemma matchAuthHere_marker token after :
  token <> EmptyString -> noWhiteSpace token -> startsLine after ->
  matchAuthHere ("Auth=" +++ token +++ after) = Some token.
Proof.
  intros nonempty clean stop. unfold matchAuthHere.
  rewrite stripPrefix_append, span_token; trivial.
  - simpl. destruct token; [contradiction | reflexivity].
  - destruct stop as [-> | [r ->]]; [now left |]. right. simpl. eauto.
Qed.

Lemma matchAuth_noWhiteSpace s : forall group,
  matchAuth s = Some group -> noWhiteSpace group.
Proof.
  induction s as [| c s IH]; intros group; rewrite matchAuth_step;
    destruct (matchAuthHere _) as [g |] eqn:here; try discriminate;
    try (intros [= <-]; apply matchAuthHere_Some in here as (rest & _ & -> & _);
         apply span_noWhiteSpace).
  apply IH.
Qed.

Lemma matchAuth_absent s : ~ occursIn "Auth=" s -> matchAuth s = None.
Proof.
  induction s as [| c s IH]; intros absent; rewrite matchAuth_step;
    destruct (matchAuthHere _) as [g |] eqn:here; trivial;
    try (apply matchAuthHere_Some in here as (rest & shape & _);
         exfalso; apply absent; exists EmptyString, rest; exact shape).
  apply IH. intros (before & after & ->). apply absent.
  now exists (String c before), after.
Qed.

Lemma chars_append a b :
  list_ascii_of_string (a +++ b) = list_ascii_of_string a ++ list_ascii_of_string b.
Proof. induction a as [| c a IH]; simpl; [reflexivity | now rewrite IH]. Qed.

(** Two ways of cutting one string: one prefix extends the other. *)
Lemma append_eq_append a : forall p t r,
  a +++ t = p +++ r ->
  (exists a', a = p +++ a' /\ r = a' +++ t) \/
  (exists p', p = a +++ p' /\ t = p' +++ r).
Proof.
  induction a as [| x a IH]; intros p t r same; simpl in same.
  - right. now exists p.
  - destruct p as [| y p]; simpl in same.
    + left. now exists (String x a).
    + injection same as -> same. destruct (IH _ _ _ same) as [(a' & -> & ->) | (p' & -> & ->)].
      * left. now exists a'.
      * right. now exists p'.
Qed.

Lemma matchAuthHere_before before tail x :
  (exists b0, String x before = b0 +++ newline) -> quietBefore (String x before) ->
  matchAuthHere (String x before +++ tail) = None.
Proof.
  intros [b0 ends] quiet.
  destruct (matchAuthHere (String x before +++ tail)) as [g |] eqn:here; trivial.
  exfalso. apply matchAuthHere_Some in here as (rest & shape & group & nonempty).
  assert (no_newline : ~ In (ascii_of_nat 10) (list_ascii_of_string "Auth=")).
  { simpl. intuition discriminate. }
  destruct (append_eq_append _ _ _ _ shape) as [(a' & whole & ->) | (p' & whole & _)].
  - destruct a' as [| c b].
    + apply no_newline. rewrite append_empty_r in whole. rewrite <- whole, ends.
      rewrite chars_append. apply in_or_app. right. now left.
    + specialize (quiet EmptyString c b whole).
      simpl in group. unfold nonSpace in group at 1. rewrite quiet in group.
      simpl in group. contradiction.
  - apply no_newline. rewrite whole, ends, !chars_append.
    apply in_or_app. left. apply in_or_app. right. now left.
Qed.

Lemma matchAuth_marker before token after :
  endsLine before -> quietBefore before ->
  token <> EmptyString -> noWhiteSpace token -> startsLine after ->
  matchAuth (before +++ "Auth=" +++ token +++ after) = Some token.
Proof.
  intros ends quiet nonempty clean stop.
  induction before as [| x before IH]; rewrite matchAuth_step.
  - change (EmptyString +++ "Auth=" +++ token +++ after)
      with ("Auth=" +++ token +++ after).
    now rewrite matchAuthHere_marker.
  - assert (ends' : exists b0, String x before = b0 +++ newline).
    { destruct ends as [| ends]; [discriminate | exact ends]. }
    rewrite (matchAuthHere_before _ _ _ ends' quiet). apply IH.
    + destruct ends' as [[| y b0] shape]; simpl in shape; injection shape as _ shape.
      * left. exact shape.
      * right. now exists b0.
    + intros a c b shape. apply (quiet (String x a) c b). simpl. now rewrite shape.
Qed.

End Strings.

(* ================================================================== *)
(** * The session protocol *)

Section SessionProtocol.

Context {World : Type}.
Context (server : World -> AxiosConfig -> ServerReply * World).
Context (JSON_stringify : JS.value -> Z -> JS.value).

(** [axios(config).catch(err => { throw new McpError(...) })] with the
    default [validateStatus]: one exchange is logged; a 2xx reply resolves
    with its status and body, anything else is the internal error. *)
Lemma guarded_axios config prefix (st : Net World) :
  validateStatus config = None ->
  exists reply w res,
    server (world st) config = (reply, w) /\
    tryCatch (axios server config)
             (fun err => throw (McpError InternalError (prefix +++ failureText err))) st
      = (res, {| world := w; log := log st ++ [(config, reply)] |}) /\
    (replied2xx reply = true ->
       exists status, reply = Reply status (replyData reply) /\
                      res = Return {| Response.status := status;
                                      Response.data := replyData reply |}) /\
    (replied2xx reply = false ->
       exists message, res = Throw (McpError InternalError message)).
Proof.
  intros default. unfold tryCatch, axios, acceptsStatus. rewrite default.
  destruct (server (world st) config) as [[status body | message] w] eqn:answer;
    simpl; [destruct (defaultValidateStatus status) eqn:ok |];
    (do 3 eexists; split; [reflexivity |]; split; [unfold throw; reflexivity |];
     split; intros decided; simpl in decided; try congruence; eauto).
Qed.

Lemma truthy_string s : JS.truthy (JS.Str s) = false <-> s = EmptyString.
Proof.
  simpl. destruct (String.eqb_spec s EmptyString); simpl; split; intros;
    congruence.
Qed.

(** The part of the statement below that is the same on every path that
    reaches the request for the edit token. *)
Ltac session_case loginConfig loginReply tokenConfig tokenReply group logged :=
  do 2 eexists; exists loginConfig, loginReply, [(tokenConfig, tokenReply)];
  split; [reflexivity |]; split; [apply logged; reflexivity |];
  split; [intros; congruence |]; split; [intros; congruence |];
  let g := fresh "g" in
  let same := fresh "same" in
  intros _ g same; assert (g = group) by congruence; subst g;
  exists tokenConfig, tokenReply; split; [reflexivity |]; split; [reflexivity |].

(** A run of [getGReaderAuthAndToken]: the login exchange, then, when the
    pattern finds a token, the exchange for the edit token. *)
Lemma getGReaderAuthAndToken_run c (st : Net World) :
  exists res st' loginConfig loginReply rest,
    getGReaderAuthAndToken server c st = (res, st') /\
    log st' = log st ++ (loginConfig, loginReply) :: rest /\
    (replied2xx loginReply = false ->
       rest = [] /\ exists message, res = Throw (McpError InternalError message)) /\
    (replied2xx loginReply = true ->
     matchAuth (JS.toString (replyData loginReply)) = None ->
       rest = [] /\
       res = Throw (McpError InternalError
                      "FreshRSS Google Reader: no Auth token in login response")) /\
    (replied2xx loginReply = true ->
     forall group, matchAuth (JS.toString (replyData loginReply)) = Some group ->
       exists tokenConfig tokenReply,
         rest = [(tokenConfig, tokenReply)] /\
         headers tokenConfig = [("Authorization", "GoogleLogin auth=" +++ group)] /\
         (forall session, res = Return session -> auth session = group) /\
         (replied2xx tokenReply = false ->
            exists message, res = Throw (McpError InternalError message)) /\
         (replied2xx tokenReply = true ->
          forall body, replyData tokenReply = JS.Str body ->
            (withoutWhiteSpace body = EmptyString ->
               res = Throw (McpError InternalError
                              "FreshRSS Google Reader: no edit token returned")) /\
            (withoutWhiteSpace body <> EmptyString ->
               res = Return {| auth := group;
                               editToken := withoutWhiteSpace body;
                               base := JS.removeTrailingSlash (apiUrl c)
                                         +++ "/api/greader.php" |}))).
Proof.
  unfold getGReaderAuthAndToken.
  match goal with |- context [tryCatch (axios server ?cfg) ?h] =>
    destruct (guarded_axios cfg "FreshRSS Google Reader login failed: " st eq_refl)
      as (loginReply & w1 & res1 & _ & login & ok1 & ko1);
    set (loginConfig := cfg) in * end.
  destruct (replied2xx loginReply) eqn:accepted1.
  - destruct ok1 as (status1 & shape1 & ->); trivial.
    rewrite (bind_return _ _ _ _ _ login). cbn [Response.data].
    destruct (matchAuth (JS.toString (replyData loginReply))) as [group |] eqn:found.
    + pose proof (trim_noWhiteSpace _ (matchAuth_noWhiteSpace _ _ found)) as same.
      rewrite same.
      match goal with |- context [tryCatch (axios server ?cfg) ?h] =>
        destruct (guarded_axios cfg "FreshRSS Google Reader token failed: "
                    {| world := w1; log := log st ++ [(loginConfig, loginReply)] |} eq_refl)
          as (tokenReply & w2 & res2 & _ & token & ok2 & ko2);
        set (tokenConfig := cfg) in * end.
      simpl log in token.
      assert (logged : forall st2 : Net World,
                 log st2 = (log st ++ [(loginConfig, loginReply)])
                             ++ [(tokenConfig, tokenReply)] ->
                 log st2 = log st ++ (loginConfig, loginReply)
                                  :: [(tokenConfig, tokenReply)]).
      { intros st2 ->. now rewrite <- app_assoc. }
      destruct (replied2xx tokenReply) eqn:accepted2.
      * destruct ok2 as (status2 & shape2 & ->); trivial.
        rewrite (bind_return _ _ _ _ _ token). cbn [Response.data].
        destruct (replyData tokenReply) as [| | flag | n | body | elems | props] eqn:payload;
          simpl optTrim; rewrite ?bind_thrown, ?bind_ret.
        5: { change (JS.toString (JS.nullish (JS.Str (JS.trim body)) (JS.Str "")))
               with (JS.trim body).
             rewrite removeWhiteSpace_trim.
             destruct (JS.truthy (JS.Str (withoutWhiteSpace body))) eqn:some;
               simpl negb; cbv iota.
             - assert (nonempty : withoutWhiteSpace body <> EmptyString).
               { intros none. apply truthy_string in none. congruence. }
               session_case loginConfig loginReply tokenConfig tokenReply group logged.
               split; [now intros session [= <-] |]. split; [intros; congruence |].
               intros _ body' same'. rewrite payload in same'. injection same' as <-.
               split; [contradiction | reflexivity].
             - apply truthy_string in some.
               session_case loginConfig loginReply tokenConfig tokenReply group logged.
               split; [discriminate |]. split; [intros; congruence |].
               intros _ body' same'. rewrite payload in same'. injection same' as <-.
               split; [reflexivity | contradiction]. }
        all: session_case loginConfig loginReply tokenConfig tokenReply group logged;
          (split; [discriminate |]; split; [intros; congruence |]; intros; congruence).
      * destruct ko2 as [message ->]; trivial.
        rewrite (bind_throw _ _ _ _ _ token).
        session_case loginConfig loginReply tokenConfig tokenReply group logged.
        split; [discriminate |]. split; [eauto | intros; congruence].
    + do 2 eexists; exists loginConfig, loginReply, [].
      split; [reflexivity |]. split; [reflexivity |].
      split; [intros; congruence |]. split; [now split | intros; congruence].
  - destruct ko1 as [message ->]; trivial.
    rewrite (bind_throw _ _ _ _ _ login).
    do 2 eexists; exists loginConfig, loginReply, [].
    split; [reflexivity |]. split; [reflexivity |].
    split; [split; eauto |]. split; intros; congruence.
Qed.


(** C5.  In a session establishment where the login is accepted with the
    text [body]: when [body] holds a line [Auth=<token>] (the token not empty
    and free of white space) and nothing before that line holds [Auth=]
    followed by a character other than white space, the token sent with the
    request for the edit token, and the token of any session returned, is
    <token>; a session is returned when the token endpoint then answers 2xx
    with a text that is not all white space.  When [body] does not hold
    [Auth=] at all, no further request is made and the operation throws the
    internal error for the missing token. *)
Theorem login_token_from_marker_line c (st : Net World) :
  let run := getGReaderAuthAndToken server c st in
  forall loginConfig status body rest,
    log (snd run) = log st ++ (loginConfig, Reply status (JS.Str body)) :: rest ->
    defaultValidateStatus status = true ->
    (forall before token after,
        body = before +++ "Auth=" +++ token +++ after ->
        endsLine before -> startsLine after ->
        token <> EmptyString -> noWhiteSpace token ->
        quietBefore before ->
        (exists tokenConfig tokenReply,
            rest = [(tokenConfig, tokenReply)] /\
            headers tokenConfig = [("Authorization", "GoogleLogin auth=" +++ token)]) /\
        (forall session, fst run = Return session -> auth session = token) /\
        (forall tokenConfig tokenStatus tokenBody,
            rest = [(tokenConfig, Reply tokenStatus (JS.Str tokenBody))] ->
            defaultValidateStatus tokenStatus = true ->
            withoutWhiteSpace tokenBody <> EmptyString ->
            exists session, fst run = Return session /\ auth session = token)) /\
    (~ occursIn "Auth=" body ->
       rest = [] /\
       fst run = Throw (McpError InternalError
                          "FreshRSS Google Reader: no Auth token in login response")).
Proof.
  intros run loginConfig status body rest logged ok. subst run.
  destruct (getGReaderAuthAndToken_run c st)
    as (res & st' & loginConfig' & loginReply & rest' & run & logged' & _ & missing & session).
  rewrite run in *. simpl fst. simpl snd in logged.
  rewrite logged in logged'. apply app_inv_head in logged'.
  injection logged' as <- <- <-. simpl in missing, session.
  split.
  - intros before token after -> ends stop nonempty clean quiet.
    destruct (session ok token (matchAuth_marker _ _ _ ends quiet nonempty clean stop))
      as (tokenConfig & tokenReply & -> & header & returned & _ & result).
    split; [eauto |]. split; [exact returned |].
    intros tokenConfig' tokenStatus tokenBody [= -> ->] ok' some.
    destruct (result ok' tokenBody eq_refl) as [_ given].
    rewrite (given some). eauto.
  - intros absent. apply missing; trivial. now apply matchAuth_absent.
Qed.





End SessionProtocol.

(** The login bodies of the examples hold [Auth=] where the statements say. *)
Ltac no_occurrence :=
  let x := fresh "x" in
  let y := fresh "y" in
  let same := fresh "same" in
  intros (x & y & same);
  repeat (destruct x as [| ? x]; simpl in same;
          [discriminate same | injection same as ? same; subst]);
  destruct x; discriminate same.

Lemma quiet_without_marker before : ~ occursIn "Auth=" before -> quietBefore before.
Proof.
  intros absent a c b shape. exfalso. apply absent. now exists a, (String c b).
Qed.

(** The example of the specification: the body ["SID=...\nAuth=abc123\n"]
    yields the token ["abc123"]. *)
Lemma login_token_from_marker_line_witness :
  exists session,
    fst (getGReaderAuthAndToken scripted testClient (start sessionScript))
      = Return session /\
    auth session = "abc123".
Proof.
  edestruct (login_token_from_marker_line scripted testClient (start sessionScript))
    as [marker _].
  - lazy. reflexivity.
  - reflexivity.
  - edestruct (marker ("SID=alice/1" +++ newline) "abc123" newline)
      as (_ & _ & returned).
    + reflexivity.
    + right. now exists "SID=alice/1".
    + right. now exists EmptyString.
    + discriminate.
    + repeat constructor.
    + apply quiet_without_marker. no_occurrence.
    + eapply returned; [reflexivity | reflexivity | discriminate].
Defined.

(** A body that holds the line [Auth=abc123], from which the login step
    nevertheless takes the token ["bad"]: the pattern is not tied to the
    start of a line, and [Auth=] occurs earlier, at the end of [XAuth=]. *)
Lemma login_marker_line_shadowed :
  shadowedLoginBody = ("XAuth=bad" +++ newline) +++ "Auth=" +++ "abc123" +++ newline /\
  endsLine ("XAuth=bad" +++ newline) /\ startsLine newline /\
  noWhiteSpace "abc123" /\
  fst (getGReaderAuthAndToken scripted testClient (start shadowedScript))
    = Return {| auth := "bad";
                editToken := "editToken";
                base := "https://rss.example.org/api/greader.php" |} /\
  "bad" <> "abc123".
Proof.
  split; [reflexivity |].
  split; [right; now exists "XAuth=bad" |].
  split; [right; now exists EmptyString |].
  split; [repeat constructor |].
  split; [vm_compute; reflexivity | discriminate].
Qed.




(* ================================================================== *)
(** * Further properties: [chunkArray] and the simple protocol *)

(** X1.  For any positive chunk size: the batches put end to end are the array,
    there are ceil(N/size) of them, none is empty, none is longer than the
    size, all but the last are full; an empty array gives no batch at all. *)
Theorem chunkArray_positive_size {T : Type} (arr : list T) (chunkSize : Z) :
  0 < chunkSize ->
  let batches := chunkArray arr chunkSize in
  List.concat batches = arr /\
  Z.of_nat (List.length batches)
    = (Z.of_nat (List.length arr) + chunkSize - 1) / chunkSize /\
  (forall b, In b batches -> 1 <= Z.of_nat (List.length b) <= chunkSize) /\
  (forall k, (k + 1 < List.length batches)%nat ->
             Z.of_nat (List.length (nth k batches [])) = chunkSize) /\
  (arr = [] -> batches = []).
Proof.
  intros pos batches.
  destruct (chunkArray_spec arr chunkSize pos) as (cat & number & full & sizes).
  fold batches in cat, number, full, sizes.
  repeat split; trivial; try (now apply sizes).
  intros ->. simpl in number. rewrite Z.div_small in number by lia.
  now destruct batches.
Qed.

Lemma chunkArray_positive_size_witness :
  List.concat (chunkArray ["a"; "b"; "c"; "d"; "e"] 2) = ["a"; "b"; "c"; "d"; "e"] /\
  Z.of_nat (List.length (chunkArray ["a"; "b"; "c"; "d"; "e"] 2)) = 3.
Proof.
  destruct (chunkArray_positive_size ["a"; "b"; "c"; "d"; "e"] 2) as (cat & number & _);
    [lia |].
  split; [exact cat | exact number].
Defined.

Section MoreSimpleProtocol.

Context {World : Type}.
Context (server : World -> AxiosConfig -> ServerReply * World).
Context (JSON_stringify : JS.value -> Z -> JS.value).
Context (now : Z).

Lemma request_exchange c endpoint method data (st : Net World) :
  let answer := server (world st) (feverRequest c data) in
  let run := request server c endpoint method data st in
  snd run = {| world := snd answer;
               log := log st ++ [(feverRequest c data, fst answer)] |} /\
  (feverSuccess (fst answer) = true -> fst run = Return (replyData (fst answer))) /\
  (forall status body,
      fst answer = Reply status body -> defaultValidateStatus status = true ->
      JS.truthy (JS.optProp body "api_version") = false ->
      fst run = Throw (Error "Invalid API response")) /\
  (forall status body,
      fst answer = Reply status body -> defaultValidateStatus status = false ->
      fst run = Throw (McpError InternalError
                         ("FreshRSS API error: "
                            +++ JS.toString
                                  (JS.or (JS.optProp body "error")
                                         (JS.Str ("Request failed with status code "
                                                    +++ JS.numberToString (JS.Int status))))))) /\
  (forall text,
      fst answer = NoReply text ->
      fst run = Throw (McpError InternalError ("FreshRSS API error: " +++ text))).
Proof.
  intros answer run. subst answer run.
  unfold request, tryCatch, bind, axios. fold (feverRequest c data).
  destruct (server (world st) (feverRequest c data)) as [[status body | text] w];
    simpl; unfold acceptsStatus; simpl.
  - destruct (defaultValidateStatus status) eqn:ok; simpl.
    + destruct (JS.truthy (JS.optProp body "api_version")) eqn:version; simpl;
        (split; [reflexivity |]; split; [intros; congruence || reflexivity |];
         split; [intros ? ? [= <- <-] ? ?; congruence || reflexivity |];
         split; [intros ? ? [= <- <-] ?; congruence | intros ? [=]]).
    + split; [reflexivity |]. split; [discriminate |].
      split; [intros ? ? [= <- <-] ? ?; congruence |].
      split; [intros ? ? [= <- <-] _; reflexivity | intros ? [=]].
  - split; [reflexivity |]. split; [discriminate |].
    split; [intros ? ? [=] |]. split; [intros ? ? [=] | intros ? [= <-]; reflexivity].
Qed.


(** ** The requests of [getUnreadItems] *)

Lemma request_run_exact c endpoint method data (st : Net World) :
  exists reply w res,
    request server c endpoint method data st
      = (res, {| world := w; log := log st ++ [(feverRequest c data, reply)] |}) /\
    (feverSuccess reply = true ->
       res = Return (replyData reply) /\ exists props, replyData reply = JS.Obj props) /\
    (feverSuccess reply = false -> exists e, res = Throw e /\ requestFailure reply e).
Proof.
  destruct (request_run server c endpoint method data st)
    as (config & reply & w & res & _ & _ & run & good & bad).
  destruct (request_exchange c endpoint method data st) as [state _].
  rewrite run in state. simpl in state. injection state as _ logged.
  apply app_inv_head in logged. injection logged as -> _.
  exists reply, w, res. split; [exact run | split; assumption].
Qed.

Lemma combine_snoc {A B} (xs : list A) (ys : list B) x y :
  List.length xs = List.length ys ->
  combine (xs ++ [x]) (ys ++ [y]) = combine xs ys ++ [(x, y)].
Proof.
  revert ys. induction xs as [| a xs IH]; intros [| b ys] same; simpl in *;
    try discriminate; [reflexivity |].
  now rewrite IH by congruence.
Qed.

(** The loop over the batches, with the requests it sends: the batches in
    order, one request each, up to the first reply that is not accepted. *)
Lemma fetchBatches_trace c :
  forall batches acc (st : Net World),
    exists res st' replies,
      fetchBatches server c batches acc st = (res, st') /\
      log st' = log st ++ combine (map (batchRequest c) batches) replies /\
      (List.length replies <= List.length batches)%nat /\
      ((Forall succeeded replies /\
        List.length replies = List.length batches /\
        res = Return (acc ++ fetchedBy replies))
       \/
       (exists done failed,
           replies = done ++ [failed] /\
           Forall succeeded done /\
           feverSuccess failed = false /\
           exists e, res = Throw e /\ requestFailure failed e)).
Proof.
  induction batches as [| batch rest IH]; intros acc st; simpl.
  - exists (Return acc), st, []. rewrite !app_nil_r. split; [reflexivity |].
    split; [reflexivity |]. split; [reflexivity |]. left. repeat split; constructor.
  - destruct (request_run_exact c "" "GET"
                [("items", ""); ("with_ids", JS.join "," batch)] st)
      as (reply & w & res & run & good & bad).
    fold (batchRequest c batch) in run.
    destruct (feverSuccess reply) eqn:ok.
    + destruct good as [-> [props shape]]; trivial.
      rewrite (bind_return _ _ _ _ _ run), shape.
      rewrite (bind_return _ _ _ _ _ (prop_object _ _ _)), push_items.
      match goal with |- context [fetchBatches server c rest ?a ?s] =>
        destruct (IH a s) as (res & st' & replies & run' & logged & bound & outcome) end.
      simpl in logged.
      exists res, st', (reply :: replies).
      split; [exact run' |].
      split; [rewrite logged, <- app_assoc; reflexivity |].
      split; [simpl; lia |].
      assert (items : (match JS.lookup "items" props with
                       | JS.Arr elems => elems | _ => [] end)
                      = fetchedItems (replyData reply)).
      { unfold fetchedItems. rewrite shape. reflexivity. }
      destruct outcome as [(all & len & result)
                          | (done & failed & cut & all & no & e & result & kind)].
      * left. split; [constructor; assumption |]. split; [simpl; congruence |].
        rewrite result, items, <- app_assoc. reflexivity.
      * right. exists (reply :: done), failed. rewrite cut.
        split; [reflexivity |]. split; [constructor; assumption |].
        split; [assumption |]. eauto.
    + destruct bad as (e & -> & kind); trivial.
      rewrite (bind_throw _ _ _ _ _ run).
      do 2 eexists. exists [reply]. split; [reflexivity |].
      simpl. split; [now destruct (map (batchRequest c) rest) |].
      split; [lia |].
      right. exists [], reply. repeat split; trivial. eauto.
Qed.

(** A whole run of [getUnreadItems], with its requests and, when every
    reply is accepted, what is left to do with the fetched items. *)
Lemma getUnreadItems_trace c (st : Net World) :
  exists res st' first replies,
    getUnreadItems server c st = (res, st') /\
    log st' = log st
                ++ (feverRequest c [("unread_item_ids", "")], first)
                :: combine (map (batchRequest c)
                                (chunkArray (unreadIdsOf (replyData first)) 50))
                           replies /\
    (feverSuccess first = false ->
       replies = [] /\ exists e, res = Throw e /\ requestFailure first e) /\
    (feverSuccess first = true ->
       (List.length replies
        <= List.length (chunkArray (unreadIdsOf (replyData first)) 50))%nat /\
       ((Forall succeeded replies /\
         List.length replies
         = List.length (chunkArray (unreadIdsOf (replyData first)) 50) /\
         res = fst (bind (filterM isUnread (fetchedBy replies))
                         (fun items => ret (unreadEnvelope (replyData first) items))
                         st'))
        \/
        (exists done failed,
            replies = done ++ [failed] /\
            Forall succeeded done /\
            feverSuccess failed = false /\
            exists e, res = Throw e /\ requestFailure failed e))).
Proof.
  unfold getUnreadItems.
  destruct (request_run_exact c "" "GET" [("unread_item_ids", "")] st)
    as (first & w & res & run & good & bad).
  destruct (feverSuccess first) eqn:ok.
  - destruct good as [-> [props shape]]; trivial.
    rewrite (bind_return _ _ _ _ _ run), shape.
    rewrite (bind_return _ _ _ _ _ (prop_object _ _ _)).
    change (filter (fun s => JS.truthy (JS.Str s))
              (map JS.trim
                 (JS.split ","
                    (JS.toString (JS.or (JS.lookup "unread_item_ids" props) (JS.Str ""))))))
      with (unreadIdsOf (JS.Obj props)).
    destruct (fetchBatches_trace c (chunkArray (unreadIdsOf (JS.Obj props)) 50) []
                {| world := w;
                   log := log st ++ [(feverRequest c [("unread_item_ids", "")], first)] |})
      as (res & st' & replies & run' & logged & bound & outcome).
    simpl in logged. rewrite <- app_assoc in logged. simpl in logged.
    destruct outcome as [(all & len & ->) | (done & failed & cut & all & no & e & -> & kind)].
    + rewrite (bind_return _ _ _ _ _ run'). simpl app.
      destruct (bind (filterM isUnread (fetchedBy replies)) _ st') as [res st''] eqn:finish.
      assert (st'' = st').
      { pose proof (f_equal snd finish) as state. simpl in state. rewrite <- state.
        apply stateless_bind.
        - apply stateless_filterM. intros item s. apply isUnread_state.
        - intros items.
          repeat (apply stateless_bind; [apply stateless_prop | intros ?]).
          apply stateless_ret. }
      subst st''.
      exists res, st', first, replies. rewrite shape. split; [reflexivity |].
      split; [exact logged |]. split; [intros refused; congruence |]. intros _.
      split; [exact bound |]. left. split; [exact all |]. split; [exact len |].
      replace res with (fst (res, st')) by reflexivity. rewrite <- finish.
      unfold bind.
      destruct (filterM isUnread (fetchedBy replies) st') as [[items | e] s];
        reflexivity.
    + rewrite (bind_throw _ _ _ _ _ run').
      do 2 eexists. exists first, replies. rewrite shape. split; [reflexivity |].
      split; [exact logged |]. split; [intros refused; congruence |]. intros _.
      split; [exact bound |]. right. exists done, failed. repeat split; trivial. eauto.
  - destruct bad as (e & -> & kind); trivial.
    rewrite (bind_throw _ _ _ _ _ run).
    do 2 eexists. exists first, []. split; [reflexivity |].
    split; [simpl; now destruct (map _ _) |].
    split; [intros _; split; eauto | intros yes; congruence].
Qed.

Lemma map_snd_combine {A B} (xs : list A) : forall ys : list B,
  (List.length ys <= List.length xs)%nat -> map snd (combine xs ys) = ys.
Proof.
  induction xs as [| x xs IH]; intros [| y ys] bound; simpl in *;
    try reflexivity; try lia.
  now rewrite IH by lia.
Qed.

Lemma map_fst_combine {A B} (xs : list A) : forall ys : list B,
  List.length ys = List.length xs -> map fst (combine xs ys) = xs.
Proof.
  induction xs as [| x xs IH]; intros [| y ys] same; simpl in *;
    try reflexivity; try discriminate.
  now rewrite IH by congruence.
Qed.


(** ** Reading the id list *)

Lemma split_plain p :
  Forall (fun ch => Ascii.eqb ch "," = false) (list_ascii_of_string p) ->
  JS.split "," p = [p].
Proof.
  induction p as [| ch p IH]; simpl; [reflexivity |].
  intros clean. inversion clean as [| ? ? this rest]; subst.
  rewrite this, (IH rest). reflexivity.
Qed.

Lemma split_append p s :
  Forall (fun ch => Ascii.eqb ch "," = false) (list_ascii_of_string p) ->
  JS.split "," (p +++ String "," s) = p :: JS.split "," s.
Proof.
  induction p as [| ch p IH]; simpl; [reflexivity |].
  intros clean. inversion clean as [| ? ? this rest]; subst.
  rewrite this, (IH rest). reflexivity.
Qed.

(** Splitting what [join] wrote gives the ids back. *)
Lemma split_join id ids :
  Forall plainId (id :: ids) ->
  JS.split "," (JS.join "," (id :: ids)) = id :: ids.
Proof.
  revert id. induction ids as [| next ids IH]; intros id plain;
    inversion plain as [| ? ? (_ & _ & clean) others]; subst.
  - now apply split_plain.
  - change (JS.join "," (id :: next :: ids))
      with (id +++ String "," (JS.join "," (next :: ids))).
    rewrite split_append by assumption. now rewrite IH.
Qed.

Lemma join_not_empty id ids :
  id <> EmptyString -> JS.join "," (id :: ids) <> EmptyString.
Proof.
  intros nonempty. destruct id as [| ch id]; [contradiction |].
  destruct ids; simpl; discriminate.
Qed.

Lemma unreadIdsOf_join data ids :
  JS.optProp data "unread_item_ids" = JS.Str (JS.join "," ids) ->
  Forall plainId ids ->
  unreadIdsOf data = ids.
Proof.
  intros field plain. unfold unreadIdsOf. rewrite field.
  destruct ids as [| id ids]; [reflexivity |].
  assert (nonempty : JS.join "," (id :: ids) <> EmptyString).
  { apply join_not_empty. inversion plain as [| ? ? (this & _) _]. exact this. }
  unfold JS.or.
  destruct (JS.truthy (JS.Str (JS.join "," (id :: ids)))) eqn:some;
    [| apply truthy_string in some; contradiction].
  change (JS.toString (JS.Str (JS.join "," (id :: ids))))
    with (JS.join "," (id :: ids)).
  rewrite split_join by assumption.
  clear nonempty field some. induction plain as [| x xs (filled & clean & _) _ IH];
    [reflexivity |].
  cbn [map filter]. rewrite (trim_noWhiteSpace _ clean).
  destruct (JS.truthy (JS.Str x)) eqn:kept;
    [| apply truthy_string in kept; contradiction].
  now rewrite IH.
Qed.


Lemma filterM_isUnread_unreadable (items : list JS.value) (st : Net World) :
  ~ Forall readable items ->
  exists text, filterM isUnread items st = (Throw (TypeError text), st).
Proof.
  induction items as [| item rest IH]; intros broken; [destruct broken; constructor |].
  simpl. unfold readable in *. destruct (JS.isNullish item) eqn:null.
  - eexists. apply bind_throw. unfold isUnread. apply bind_throw.
    unfold prop. rewrite null. reflexivity.
  - destruct IH as [text thrown].
    { intros fine. apply broken. now constructor. }
    exists text.
    assert (first : isUnread item st = (Return (isReadZero item), st)).
    { unfold isUnread. rewrite (bind_return _ _ _ _ _ (prop_readable _ _ _ null)).
      reflexivity. }
    rewrite (bind_return _ _ _ _ _ first). now apply bind_throw.
Qed.

(** The dispatch of the two tools already described. *)
Lemma callTool_get_unread c arguments :
  callTool server JSON_stringify now c "get_unread" arguments
  = tool_get_unread server JSON_stringify c.
Proof. reflexivity. Qed.

Lemma callTool_get_feed_items c arguments :
  callTool server JSON_stringify now c "get_feed_items" arguments
  = tool_get_feed_items server JSON_stringify c arguments.
Proof. reflexivity. Qed.

(** What a run of [getUnreadItems] that starts with an empty log leaves in
    the log, read against the replies observed. *)
Lemma observed_replies c (w : World) (st' : Net World) first replies idsReply observed :
  log st' = log (start w)
              ++ (feverRequest c [("unread_item_ids", "")], first)
              :: combine (map (batchRequest c)
                              (chunkArray (unreadIdsOf (replyData first)) 50))
                         replies ->
  (List.length replies
   <= List.length (chunkArray (unreadIdsOf (replyData first)) 50))%nat ->
  map snd (log st') = idsReply :: observed ->
  first = idsReply /\ replies = observed.
Proof.
  intros -> bound same. simpl in same.
  rewrite map_snd_combine in same by (rewrite length_map; exact bound).
  now inversion same.
Qed.


(** X4.  When the id-list response carries the ids [ids] (plain ids joined by
    commas) and every request is accepted, the requests of the run are the
    request for the id list followed by one request per batch of 50 ids, in
    order, each with its ids joined by commas: ceil(N/50) item requests. *)
Theorem getUnreadItems_requests_ids_in_batches c (w : World) :
  let run := getUnreadItems server c (start w) in
  forall idsReply replies ids,
    map snd (log (snd run)) = idsReply :: replies ->
    Forall succeeded (idsReply :: replies) ->
    JS.optProp (replyData idsReply) "unread_item_ids" = JS.Str (JS.join "," ids) ->
    Forall plainId ids ->
    map fst (log (snd run))
      = feverRequest c [("unread_item_ids", "")]
          :: map (batchRequest c) (chunkArray ids 50) /\
    Z.of_nat (List.length replies) = (Z.of_nat (List.length ids) + 49) / 50.
Proof.
  intros run idsReply observed ids logged accepted field plain. subst run.
  destruct (getUnreadItems_trace c (start w))
    as (res & st' & first & replies & run & trace & _ & good).
  rewrite run in *. simpl snd in *.
  inversion accepted as [| ? ? ok others]; subst.
  assert (first = idsReply /\ replies = observed) as [-> ->].
  { destruct (feverSuccess first) eqn:ok'.
    - destruct (good eq_refl) as [bound _].
      exact (observed_replies _ _ _ _ _ _ _ trace bound logged).
    - rewrite trace in logged. simpl in logged. injection logged as <- _.
      unfold succeeded in ok. congruence. }
  destruct (good ok) as [bound outcome].
  rewrite (unreadIdsOf_join _ _ field plain) in *.
  assert (len : List.length observed = List.length (chunkArray ids 50)).
  { destruct outcome as [(_ & len & _) | (done & failed & cut & _ & refused & _)];
      [exact len |].
    subst observed. apply Forall_app in others as [_ last].
    inversion last as [| ? ? this _]; subst. unfold succeeded in this. congruence. }
  split.
  - rewrite trace. simpl. f_equal.
    apply map_fst_combine. now rewrite length_map.
  - rewrite len. destruct (chunkArray_spec ids 50) as (_ & number & _); [lia |].
    rewrite number. f_equal. lia.
Qed.

(** X5.  A [null] among the items of an accepted batch response makes the filter
    of [getUnreadItems] throw a [TypeError]: nothing is returned, and the
    tool call fails with the internal error that quotes it. *)
Theorem getUnreadItems_null_item c (w : World) arguments :
  let run := getUnreadItems server c (start w) in
  forall idsReply replies,
    map snd (log (snd run)) = idsReply :: replies ->
    Forall succeeded (idsReply :: replies) ->
    In JS.Null (fetchedBy replies) ->
    exists text,
      fst run = Throw (TypeError text) /\
      fst (callTool server JSON_stringify now c "get_unread" arguments (start w))
      = Throw (McpError InternalError (exnToString (TypeError text))).
Proof.
  intros run idsReply observed logged accepted null. subst run.
  rewrite callTool_get_unread. unfold tool_get_unread, handleErrors.
  destruct (getUnreadItems_trace c (start w))
    as (res & st' & first & replies & run & trace & _ & good).
  rewrite run in *. simpl snd in *. simpl fst.
  inversion accepted as [| ? ? ok others]; subst.
  assert (first = idsReply /\ replies = observed) as [-> ->].
  { destruct (feverSuccess first) eqn:ok'.
    - destruct (good eq_refl) as [bound _].
      exact (observed_replies _ _ _ _ _ _ _ trace bound logged).
    - rewrite trace in logged. simpl in logged. injection logged as <- _.
      unfold succeeded in ok. congruence. }
  destruct (good ok) as [_ [(_ & _ & result) | (done & failed & cut & _ & refused & _)]].
  - destruct (filterM_isUnread_unreadable (fetchedBy observed) st') as [text thrown].
    { intros fine. rewrite Forall_forall in fine. specialize (fine _ null).
      discriminate fine. }
    rewrite (bind_throw _ _ _ _ _ thrown) in result. simpl in result. subst res.
    exists text. split; [reflexivity |].
    rewrite (tryCatch_throw _ _ _ _ _ (bind_throw _ _ _ _ _ run)). reflexivity.
  - subst observed. apply Forall_app in others as [_ last].
    inversion last as [| ? ? this _]; subst. unfold succeeded in this. congruence.
Qed.

(** ** [getItems], the mark tools, and the names of the tools *)

Lemma toString_strings ids : JS.toString (JS.Arr (map JS.Str ids)) = JS.join "," ids.
Proof.
  induction ids as [| id [| next ids] IH]; try reflexivity.
  change (JS.toString (JS.Arr (map JS.Str (id :: next :: ids))))
    with (id +++ "," +++ JS.toString (JS.Arr (map JS.Str (next :: ids)))).
  now rewrite IH.
Qed.

(** X6.  [getItems] sends the ids it is given in one request, joined by commas,
    however many they are (nothing is cut into batches), and returns the
    accepted body as it is; given anything but an array it sends nothing and
    throws a [TypeError]. *)
Theorem getItems_single_request c (ids : list string) (st : Net World) :
  let request := feverRequest c [("items", ""); ("with_ids", JS.join "," ids)] in
  let answer := server (world st) request in
  let run := getItems server c (JS.Arr (map JS.Str ids)) st in
  snd run = {| world := snd answer; log := log st ++ [(request, fst answer)] |} /\
  (feverSuccess (fst answer) = true -> fst run = Return (replyData (fst answer))) /\
  (forall v, JS.isArray v = false ->
             exists text, getItems server c v st = (Throw (TypeError text), st)).
Proof.
  intros request answer run. subst request answer run.
  unfold getItems at 1 2. rewrite toString_strings.
  destruct (request_exchange c "" "GET"
              [("items", ""); ("with_ids", JS.join "," ids)] st)
    as (state & accepted & _).
  split; [exact state |]. split; [exact accepted |].
  intros v other. destruct v; try discriminate; simpl; unfold throw; eauto.
Qed.



(** ** Which exceptions leave the handler *)

Lemma throwsOnly_ret {A} P (a : A) : throwsOnly (World := World) P (ret a).
Proof. intros st e st' [=]. Qed.

Lemma throwsOnly_throw {A} (P : Exn -> Prop) e :
  P e -> throwsOnly (World := World) (A := A) P (throw e).
Proof. intros holds st e' st' [= <- _]. exact holds. Qed.

Lemma throwsOnly_bind {A B} P (m : M World A) (k : A -> M World B) :
  throwsOnly P m -> (forall a, throwsOnly P (k a)) -> throwsOnly P (bind m k).
Proof.
  intros first then_ st e st'. unfold bind.
  destruct (m st) as [[a | e1] st1] eqn:run.
  - apply then_.
  - intros [= <- _]. exact (first _ _ _ run).
Qed.

Lemma throwsOnly_tryCatch {A} (P : Exn -> Prop) (m : M World A) handler :
  throwsOnly P m -> (forall e, P e -> throwsOnly P (handler e)) ->
  throwsOnly P (tryCatch m handler).
Proof.
  intros body caught st e st'. unfold tryCatch.
  destruct (m st) as [[a | e1] st1] eqn:run; [intros [=] |].
  apply caught. exact (body _ _ _ run).
Qed.

Lemma knownTool_internal text : knownTool (McpError InternalError text).
Proof. intros other. discriminate. Qed.

Lemma knownTool_typeError text : knownTool (TypeError text).
Proof. intros other. discriminate. Qed.

Lemma knownTool_error text : knownTool (Error text).
Proof. intros other. discriminate. Qed.

Lemma throwsOnly_axios config : throwsOnly knownTool (axios server config).
Proof.
  intros st e st'. unfold axios.
  destruct (server (world st) config) as [[status body | text] w].
  - destruct (acceptsStatus config status); intros [= <- _]; intros other; discriminate.
  - intros [= <- _]. intros other. discriminate.
Qed.

Lemma throwsOnly_prop v k : throwsOnly (World := World) knownTool (prop v k).
Proof.
  unfold prop. destruct (JS.isNullish v);
    [apply throwsOnly_throw, knownTool_typeError | apply throwsOnly_ret].
Qed.

Lemma throwsOnly_setProp v k x : throwsOnly (World := World) knownTool (setProp v k x).
Proof.
  destruct v; simpl;
    (apply throwsOnly_ret || apply throwsOnly_throw, knownTool_typeError).
Qed.

Lemma throwsOnly_filterM {A} P (f : A -> M World bool) items :
  (forall x, throwsOnly P (f x)) -> throwsOnly P (filterM f items).
Proof.
  intros each. induction items as [| x rest IH]; simpl; [apply throwsOnly_ret |].
  apply throwsOnly_bind; [apply each | intros keep].
  apply throwsOnly_bind; [exact IH | intros kept; apply throwsOnly_ret].
Qed.

Lemma throwsOnly_someM {A} P (f : A -> M World bool) items :
  (forall x, throwsOnly P (f x)) -> throwsOnly P (someM f items).
Proof.
  intros each. induction items as [| x rest IH]; simpl; [apply throwsOnly_ret |].
  apply throwsOnly_bind; [apply each | intros [|]; [apply throwsOnly_ret | exact IH]].
Qed.

Ltac settle_throws :=
  repeat first
    [ apply throwsOnly_ret
    | apply throwsOnly_throw; first [ assumption | apply knownTool_internal
                                    | apply knownTool_typeError | apply knownTool_error ]
    | apply throwsOnly_prop | apply throwsOnly_setProp | apply throwsOnly_axios
    | apply throwsOnly_filterM | apply throwsOnly_someM
    | apply throwsOnly_bind | apply throwsOnly_tryCatch
    | match goal with |- forall _, _ => intro end
    | match goal with |- throwsOnly _ (if ?b then _ else _) => destruct b end
    | match goal with |- throwsOnly _ (match ?x with _ => _ end) => destruct x end
    | progress cbv zeta ].

Lemma throwsOnly_request c endpoint method data :
  throwsOnly knownTool (request server c endpoint method data).
Proof. unfold request. settle_throws. Qed.

Lemma throwsOnly_fetchBatches c batches :
  forall acc, throwsOnly knownTool (fetchBatches server c batches acc).
Proof.
  induction batches as [| batch rest IH]; intros acc; simpl; [apply throwsOnly_ret |].
  apply throwsOnly_bind; [apply throwsOnly_request | intros itemsResp].
  apply throwsOnly_bind; [apply throwsOnly_prop | intros items]. apply IH.
Qed.

Lemma throwsOnly_getUnreadItems c : throwsOnly knownTool (getUnreadItems server c).
Proof.
  unfold getUnreadItems.
  apply throwsOnly_bind; [apply throwsOnly_request | intros unreadIdsResp].
  apply throwsOnly_bind; [apply throwsOnly_prop | intros ids].
  apply throwsOnly_bind; [apply throwsOnly_fetchBatches | intros all].
  unfold isUnread. settle_throws.
Qed.

Lemma throwsOnly_feedItemsResponse c arguments :
  throwsOnly knownTool (feedItemsResponse server c arguments).
Proof.
  unfold feedItemsResponse, getFeedItems, sameFeed.
  apply throwsOnly_bind; [apply throwsOnly_prop | intros feed_id].
  apply throwsOnly_bind; [apply throwsOnly_request | intros response].
  settle_throws.
Qed.

Lemma throwsOnly_session c : throwsOnly knownTool (getGReaderAuthAndToken server c).
Proof. unfold getGReaderAuthAndToken, optTrim. settle_throws. Qed.

Lemma throwsOnly_subscribeFeed c feedUrl categoryName :
  throwsOnly knownTool (subscribeFeed server JSON_stringify c feedUrl categoryName).
Proof.
  unfold subscribeFeed.
  apply throwsOnly_bind; [apply throwsOnly_session | intros session].
  settle_throws.
Qed.

Lemma throwsOnly_createCategory c categoryName :
  throwsOnly knownTool (createCategory server c categoryName).
Proof.
  unfold createCategory, tagsSome.
  apply throwsOnly_bind; [apply throwsOnly_session | intros session].
  settle_throws.
Qed.

Lemma throwsOnly_unsubscribeFeed c feedId :
  throwsOnly knownTool (unsubscribeFeed server c feedId).
Proof.
  unfold unsubscribeFeed.
  apply throwsOnly_bind; [apply throwsOnly_session | intros session].
  settle_throws.
Qed.

Lemma throwsOnly_getItems c itemIds : throwsOnly knownTool (getItems server c itemIds).
Proof.
  unfold getItems.
  destruct itemIds;
    (apply throwsOnly_request || apply throwsOnly_throw, knownTool_typeError).
Qed.

(** Under the handler's [catch], a body that never throws the error for an
    unknown tool can only fail with an internal error. *)
Lemma handleErrors_internal {A} (body : M World A) :
  throwsOnly knownTool body ->
  forall st e st', handleErrors body st = (Throw e, st') ->
                   exists text, e = McpError InternalError text.
Proof.
  intros known st e st'. unfold handleErrors, tryCatch.
  destruct (body st) as [[a | e1] st1] eqn:run; [intros [=] |].
  specialize (known _ _ _ run).
  destruct e1 as [text response | [|] text | text | text]; simpl;
    intros [= <- _]; eauto.
  exfalso. exact (known text eq_refl).
Qed.

(** X8.  A name that is not in the announced list is refused with the error for
    an unknown tool, quoting the name, and nothing is sent to the service. *)
Theorem callTool_unknown_tool c name arguments (st : Net World) :
  ~ In name toolNames ->
  callTool server JSON_stringify now c name arguments st
  = (Throw (McpError MethodNotFound ("Unknown tool: " +++ name)), st).
Proof.
  intros absent. unfold callTool, toolCase.
  repeat match goal with
         | |- context [String.eqb name ?known] =>
             destruct (String.eqb_spec name known) as [-> | _];
             [exfalso; apply absent; unfold toolNames; simpl; tauto |]
         end.
  reflexivity.
Qed.

(** X9.  Every announced tool is handled: called by one of the eleven names of
    the list, the handler never answers that the tool is unknown; whatever
    goes wrong inside (a refused request, a malformed body, a missing
    argument), the only exception that leaves it is the internal error. *)
Theorem callTool_announced_tool c name arguments (st : Net World) :
  In name toolNames ->
  forall e, fst (callTool server JSON_stringify now c name arguments st) = Throw e ->
            exists text, e = McpError InternalError text.
Proof.
  intros announced e thrown.
  destruct (callTool server JSON_stringify now c name arguments st) as [res st'] eqn:run.
  simpl in thrown. subst res. revert run. unfold callTool.
  apply handleErrors_internal.
  unfold toolNames in announced. simpl in announced.
  repeat (destruct announced as [<- | announced]);
    try contradiction;
    unfold toolCase; cbn [String.eqb Ascii.eqb Bool.eqb];
    unfold getSubscriptions, getFeedGroups, markAsRead, markAsUnread, markFeedAsRead.
  all: repeat first
         [ apply throwsOnly_request | apply throwsOnly_getUnreadItems
         | apply throwsOnly_feedItemsResponse | apply throwsOnly_getItems
         | apply throwsOnly_unsubscribeFeed | apply throwsOnly_createCategory
         | apply throwsOnly_subscribeFeed
         | apply throwsOnly_bind | apply throwsOnly_prop | apply throwsOnly_ret
         | match goal with |- forall _, _ => intro end
         | match goal with |- throwsOnly _ (if ?b then _ else _) => destruct b end ].
Qed.

End MoreSimpleProtocol.

(* ================================================================== *)
(** * Further properties: the session protocol *)

Section MoreSessionProtocol.

Context {World : Type}.
Context (server : World -> AxiosConfig -> ServerReply * World).
Context (JSON_stringify : JS.value -> Z -> JS.value).
Context (now : Z).

(** The text a handler of the session protocol puts after its prefix. *)
Lemma failureText_of_reply status body :
  failureText (AxiosError ("Request failed with status code "
                             +++ JS.numberToString (JS.Int status))
                          (Some {| Response.status := status; Response.data := body |}))
  = JS.toString (JS.or body (JS.Str ("Request failed with status code "
                                       +++ JS.numberToString (JS.Int status)))).
Proof. reflexivity. Qed.

(** [axios(config).catch(...)] with the default [validateStatus], with the
    state it leaves and the text of the error it throws. *)
Lemma guarded_axios_exact config prefix (st : Net World) :
  validateStatus config = None ->
  let answer := server (world st) config in
  let run := tryCatch (axios server config)
               (fun err => throw (McpError InternalError (prefix +++ failureText err))) st in
  snd run = {| world := snd answer; log := log st ++ [(config, fst answer)] |} /\
  (forall status body,
      fst answer = Reply status body -> defaultValidateStatus status = true ->
      fst run = Return {| Response.status := status; Response.data := body |}) /\
  (forall status body,
      fst answer = Reply status body -> defaultValidateStatus status = false ->
      fst run = Throw (McpError InternalError
                         (prefix +++ JS.toString
                                       (JS.or body
                                              (JS.Str ("Request failed with status code "
                                                         +++ JS.numberToString (JS.Int status))))))) /\
  (forall text,
      fst answer = NoReply text ->
      fst run = Throw (McpError InternalError (prefix +++ text))).
Proof.
  intros default answer run. subst answer run.
  unfold tryCatch, axios, acceptsStatus. rewrite default.
  destruct (server (world st) config) as [[status body | text] w]; simpl.
  - destruct (defaultValidateStatus status) eqn:ok; simpl;
      (split; [reflexivity |];
       split; [intros ? ? [= <- <-] ?; congruence || reflexivity |];
       split; [intros ? ? [= <- <-] ?; congruence || reflexivity | intros ? [=]]).
  - split; [reflexivity |]. split; [intros ? ? [=] |].
    split; [intros ? ? [=] | intros ? [= <-]; reflexivity].
Qed.


Lemma stateless_optTrim v : stateless (World := World) (optTrim v).
Proof. destruct v; simpl; (apply stateless_ret || apply stateless_throw). Qed.

(** X10.  Establishing a session never reuses anything: from any state, whatever
    was exchanged before, it first sends the login request with the user
    name and the password; it then sends at most one more request, the one
    for the edit token, carrying the token that this login returned. *)
Theorem session_logs_in_afresh c (st : Net World) :
  let answer := server (world st) (loginRequest c) in
  let run := getGReaderAuthAndToken server c st in
  log (snd run) = log st ++ [(loginRequest c, fst answer)]
  \/
  exists token reply,
    replied2xx (fst answer) = true /\
    matchAuth (JS.toString (replyData (fst answer))) = Some token /\
    log (snd run) = log st ++ [(loginRequest c, fst answer); (tokenRequest c token, reply)].
Proof.
  intros answer run. subst answer run. unfold getGReaderAuthAndToken.
  fold (loginRequest c).
  destruct (guarded_axios_exact (loginRequest c) "FreshRSS Google Reader login failed: "
              st eq_refl) as (state & accepted & refused & lost).
  destruct (tryCatch (axios server (loginRequest c)) _ st) as [res st1] eqn:login.
  destruct (server (world st) (loginRequest c)) as [[status body | text] w1];
    cbn [fst snd] in *; subst st1.
  - destruct (defaultValidateStatus status) eqn:ok.
    + rewrite (accepted _ _ eq_refl ok) in login.
      rewrite (bind_return _ _ _ _ _ login). cbn [Response.data].
      destruct (matchAuth (JS.toString body)) as [group |] eqn:found.
      * right. exists group.
        rewrite (trim_noWhiteSpace _ (matchAuth_noWhiteSpace _ _ found)).
        fold (tokenRequest c group).
        rewrite bind_stateless.
        2: { intros tokenRes. apply stateless_bind; [apply stateless_optTrim |].
             intros trimmed.
             destruct (negb _); [apply stateless_throw | apply stateless_ret]. }
        destruct (guarded_axios_exact (tokenRequest c group)
                    "FreshRSS Google Reader token failed: "
                    {| world := w1; log := log st ++ [(loginRequest c, Reply status body)] |}
                    eq_refl) as (state2 & _).
        rewrite state2. simpl. rewrite <- app_assoc.
        eexists. split; [exact ok |]. split; [exact found |]. reflexivity.
      * left. reflexivity.
    + rewrite (refused _ _ eq_refl ok) in login.
      rewrite (bind_throw _ _ _ _ _ login). left. reflexivity.
  - rewrite (lost _ eq_refl) in login.
    rewrite (bind_throw _ _ _ _ _ login). left. reflexivity.
Qed.


(** ** [subscribeFeed] and [unsubscribeFeed] *)

(** The fields [subscribeFeed] sends. *)
Lemma subscribeFeed_exchange c feedUrl categoryName (st st1 : Net World) session :
  getGReaderAuthAndToken server c st = (Return session, st1) ->
  let fields :=
    [("ac", "subscribe"); ("s", "feed/" +++ feedUrl); ("T", editToken session)]
      ++ (if negb (JS.isNullish categoryName)
             && negb (JS.strictEquals categoryName (JS.Str ""))
          then [("a", "user/-/label/" +++ JS.toString categoryName)]
          else []) in
  let asked := subscriptionEdit session fields true in
  let answer := server (world st1) asked in
  let run := subscribeFeed server JSON_stringify c feedUrl categoryName st in
  snd run = {| world := snd answer; log := log st1 ++ [(asked, fst answer)] |} /\
  (forall text, fst answer = NoReply text -> fst run = Throw (AxiosError text None)) /\
  (forall status body,
      fst answer = Reply status (JS.Str body) -> status <> 200 ->
      fst run = Return {| feedId := JS.Undefined; title := JS.Undefined;
                          numResults := JS.Undefined; error := JS.Str body |}).
Proof.
  intros established fields asked answer run. subst fields asked answer run.
  unfold subscribeFeed. rewrite (bind_return _ _ _ _ _ established).
  match goal with |- context [axios server ?cfg] =>
    assert (same : cfg = subscriptionEdit session
                           ([("ac", "subscribe"); ("s", "feed/" +++ feedUrl);
                             ("T", editToken session)]
                              ++ (if negb (JS.isNullish categoryName)
                                     && negb (JS.strictEquals categoryName (JS.Str ""))
                                  then [("a", "user/-/label/" +++ JS.toString categoryName)]
                                  else [])) true)
      by (unfold subscriptionEdit; destruct (negb _ && negb _); reflexivity);
    rewrite same; clear same end.
  match goal with |- context [axios server ?cfg] => set (asked := cfg) end.
  unfold bind, axios.
  destruct (server (world st1) asked) as [[status body | text] w] eqn:answered;
    cbn [fst snd].
  - replace (acceptsStatus asked status) with true by reflexivity.
    cbn [Response.data Response.status].
    assert (pure : forall (r1 r2 r3 : SubscribeResult) (b1 b2 : bool) (s : Net World),
               (if b1 then ret r1 else if b2 then ret r2 else ret r3) s
               = (Return (if b1 then r1 else if b2 then r2 else r3), s)).
    { intros r1 r2 r3 [|] [|] s; reflexivity. }
    rewrite !pure. cbn [fst snd]. split; [reflexivity |].
    split; [intros ? [=] |].
    intros status' body' [= -> ->] other. apply Z.eqb_neq in other. now rewrite other.
  - split; [reflexivity |]. split; [intros ? [= <-]; reflexivity | intros ? ? [=]].
Qed.

(** X12.  [subscribeFeed] sends exactly one subscription edit, with the fields
    [ac=subscribe], [s=feed/<url>] and [T=<edit token>].  A category name that
    is missing, [null] or empty adds nothing; any other name adds the label
    [a=user/-/label/<name>], after the three. *)
Theorem subscribeFeed_label c feedUrl categoryName (st st1 : Net World) session :
  getGReaderAuthAndToken server c st = (Return session, st1) ->
  let fields :=
    [("ac", "subscribe"); ("s", "feed/" +++ feedUrl); ("T", editToken session)] in
  let sent := map (fun x => (url (fst x), form (fst x)))
                  (skipn (List.length (log st1))
                         (log (snd (subscribeFeed server JSON_stringify c feedUrl
                                      categoryName st)))) in
  (categoryName = JS.Undefined \/ categoryName = JS.Null
   \/ categoryName = JS.Str EmptyString ->
   sent = [(base session +++ "/reader/api/0/subscription/edit", fields)]) /\
  (forall name, categoryName = JS.Str name -> name <> EmptyString ->
                sent = [(base session +++ "/reader/api/0/subscription/edit",
                         fields ++ [("a", "user/-/label/" +++ name)])]).
Proof.
  intros established fields sent. subst fields sent.
  destruct (subscribeFeed_exchange c feedUrl categoryName st st1 session established)
    as (state & _).
  rewrite state. cbn [log]. rewrite skipn_app, Nat.sub_diag, skipn_all. simpl skipn.
  split.
  - intros [-> | [-> | ->]]; reflexivity.
  - intros name -> filled. simpl JS.isNullish. simpl JS.strictEquals.
    apply String.eqb_neq in filled. rewrite filled. reflexivity.
Qed.




End MoreSessionProtocol.

(* ================================================================== *)
(** * Further properties: feed ids and the handler of [get_feed_items] *)

Section MoreFeedItems.

Context {World : Type}.
Context (server : World -> AxiosConfig -> ServerReply * World).
Context (JSON_stringify : JS.value -> Z -> JS.value).
Context (now : Z).

Lemma digitsValue_uint d acc :
  JS.digitsValue acc (NilEmpty.string_of_uint d) = uintValue acc d.
Proof.
  revert acc. induction d; intros acc; simpl; [reflexivity | ..]; apply IHd.
Qed.

Lemma span_uint d :
  JS.span JS.isDigit (NilEmpty.string_of_uint d)
  = (NilEmpty.string_of_uint d, EmptyString).
Proof.
  induction d; simpl; [reflexivity | ..];
    change (JS.span JS.isDigit (NilEmpty.string_of_uint d))
      with (JS.span JS.isDigit (NilEmpty.string_of_uint d)) in *;
    rewrite IHd; reflexivity.
Qed.

Lemma uintValue_acc d acc : Z.pos (Pos.of_uint_acc d acc) = uintValue (Z.pos acc) d.
Proof.
  revert acc. induction d; intros acc; cbn [Pos.of_uint_acc uintValue];
    [reflexivity | ..]; rewrite IHd; f_equal; lia.
Qed.

Lemma uintValue_of_uint d : Z.of_N (Pos.of_uint d) = uintValue 0 d.
Proof.
  induction d; cbn [Pos.of_uint uintValue]; [reflexivity | exact IHd | ..];
    cbn [Z.of_N]; apply uintValue_acc.
Qed.

(** A number read in the decimal digits [d], which do not start with white
    space or a sign. *)
Lemma parseInt_uint d :
  d <> Decimal.Nil ->
  JS.parseInt (NilEmpty.string_of_uint d) = JS.Int (uintValue 0 d) /\
  JS.parseInt (String "-" (NilEmpty.string_of_uint d)) = JS.Int (- uintValue 0 d).
Proof.
  intros filled.
  assert (read : forall sign s,
             s = NilEmpty.string_of_uint d ->
             match fst (JS.span JS.isDigit s) with
             | EmptyString => JS.NaN
             | ds => JS.Int (sign * JS.digitsValue 0 ds)
             end = JS.Int (sign * uintValue 0 d)).
  { intros sign s ->. rewrite span_uint. cbn [fst]. rewrite <- digitsValue_uint.
    destruct d; try reflexivity. contradiction. }
  split.
  - unfold JS.parseInt.
    destruct d; try contradiction;
      (cbn [NilEmpty.string_of_uint JS.trimStart];
       match goal with |- context [JS.isWhiteSpace ?c] =>
         change (JS.isWhiteSpace c) with false end;
       cbv beta iota zeta; match goal with |- context [JS.span JS.isDigit ?s] =>
         rewrite (read 1 s eq_refl) end;
       f_equal; lia).
  - unfold JS.parseInt. cbn [JS.trimStart].
    change (JS.isWhiteSpace "-") with false. cbv beta iota zeta.
    rewrite (read (-1) _ eq_refl). f_equal; lia.
Qed.

Lemma parseInt_numberToString z :
  JS.parseInt (JS.numberToString (JS.Int z)) = JS.Int z.
Proof.
  unfold JS.numberToString.
  destruct z as [| p | p]; [reflexivity | ..]; cbn [Z.to_int NilZero.string_of_int];
    pose proof (Unsigned.to_uint_nonnil p) as filled;
    destruct (parseInt_uint (Pos.to_uint p) filled) as [positive negative];
    pose proof (uintValue_of_uint (Pos.to_uint p)) as value;
    rewrite Unsigned.of_to in value; cbn [Z.of_N] in value.
  - unfold NilZero.string_of_uint.
    destruct (Pos.to_uint p) eqn:digits; try contradiction;
      rewrite positive; f_equal; congruence.
  - unfold NilZero.string_of_uint.
    destruct (Pos.to_uint p) eqn:digits; try contradiction;
      rewrite negative; f_equal; rewrite <- value; reflexivity.
Qed.

(** X16.  The tool [get_feed_items] treats the feed id given as the number [z]
    and as the decimal digits of [z] alike: the same request, the same
    filter, the same result.  ([z] is an integer a JavaScript number holds
    exactly; these print as their digits.) *)
Theorem feed_id_as_digits_or_number c z a1 a2 (st : Net World) :
  safeInteger z -> readable a1 -> readable a2 ->
  JS.optProp a1 "feed_id" = JS.Str (JS.numberToString (JS.Int z)) ->
  JS.optProp a2 "feed_id" = JS.num z ->
  callTool server JSON_stringify now c "get_feed_items" a1 st
  = callTool server JSON_stringify now c "get_feed_items" a2 st.
Proof.
  intros _ object1 object2 digits number.
  assert (same : feedItemsResponse server c a1 st = feedItemsResponse server c a2 st).
  { unfold feedItemsResponse.
    rewrite (bind_return _ _ _ _ _ (prop_readable _ _ _ object1)).
    rewrite (bind_return _ _ _ _ _ (prop_readable _ _ _ object2)).
    rewrite digits, number. unfold getFeedItems, JS.num.
    cbn [JS.toString]. rewrite !parseInt_numberToString. reflexivity. }
  unfold callTool, toolCase. cbn [String.eqb Ascii.eqb Bool.eqb].
  unfold handleErrors, tryCatch, bind. rewrite same. reflexivity.
Qed.

Lemma accepted_response c feedId (st st1 : Net World) response :
  getFeedItems server c feedId st = (Return response, st1) ->
  exists props, response = JS.Obj props.
Proof.
  unfold getFeedItems. intros run.
  match type of run with request _ _ _ _ ?data _ = _ =>
    destruct (request_run_exact server c "" "GET" data st)
      as (reply & w & res & sent & good & bad) end.
  rewrite sent in run. injection run as -> _.
  destruct (feverSuccess reply) eqn:ok.
  - destruct (good eq_refl) as [[= ->] shape]. exact shape.
  - destruct (bad eq_refl) as (e & [=] & _).
Qed.

(** X17.  When the response [getFeedItems] returns has no [items] array, the tool
    [get_feed_items] filters nothing and adjusts no count: it serialises
    the response as it came. *)
Theorem feed_items_without_array c arguments (st st1 : Net World) response :
  readable arguments ->
  getFeedItems server c (JS.optProp arguments "feed_id") st = (Return response, st1) ->
  JS.isArray (JS.optProp response "items") = false ->
  callTool server JSON_stringify now c "get_feed_items" arguments st
  = (Return {| text := JSON_stringify response 2 |}, st1).
Proof.
  intros object run other.
  destruct (accepted_response _ _ _ _ _ run) as [props ->].
  unfold callTool, toolCase. cbn [String.eqb Ascii.eqb Bool.eqb].
  unfold handleErrors.
  apply tryCatch_return.
  assert (raw : feedItemsResponse server c arguments st = (Return (JS.Obj props), st1)).
  { unfold feedItemsResponse.
    rewrite (bind_return _ _ _ _ _ (prop_readable _ _ _ object)).
    rewrite (bind_return _ _ _ _ _ run).
    rewrite (bind_return _ _ _ _ _ (prop_object _ _ _)).
    change (JS.optProp (JS.Obj props) "items") with (JS.lookup "items" props) in other.
    rewrite other, andb_false_r. reflexivity. }
  rewrite (bind_return _ _ _ _ _ raw). reflexivity.
Qed.

Lemma filter_ofFeed_NaN elems :
  Forall hasNumericFeedId elems -> filter (ofFeed JS.NaN) elems = [].
Proof.
  induction 1 as [| item rest [_ [z typed]] _ IH]; simpl; [reflexivity |].
  unfold ofFeed at 1. rewrite typed. exact IH.
Qed.

(** X18.  A feed id in which [parseInt] reads no number (missing, or a string
    that does not start with digits) matches no item: when [getFeedItems]
    returns a response with an [items] array (of objects whose [feed_id] is
    a number), the tool [get_feed_items] reports no item at all, and a count
    of 0 where the response had one; the other fields are the raw ones. *)
Theorem feed_items_of_unreadable_id c arguments (st st1 : Net World) props elems :
  readable arguments ->
  JS.parseInt (JS.toString (JS.optProp arguments "feed_id")) = JS.NaN ->
  getFeedItems server c (JS.optProp arguments "feed_id") st
    = (Return (JS.Obj props), st1) ->
  JS.lookup "items" props = JS.Arr elems ->
  Forall hasNumericFeedId elems ->
  exists response,
    callTool server JSON_stringify now c "get_feed_items" arguments st
      = (Return {| text := JSON_stringify (JS.Obj response) 2 |}, st1) /\
    JS.lookup "items" response = JS.Arr [] /\
    (JS.lookup "total_items" props <> JS.Undefined ->
       JS.lookup "total_items" response = JS.num 0) /\
    (JS.lookup "total_items" props = JS.Undefined ->
       JS.lookup "total_items" response = JS.Undefined) /\
    (forall k, k <> "items" -> k <> "total_items" ->
               JS.lookup k response = JS.lookup k props).
Proof.
  intros object unreadable run array typed.
  assert (whole : exists response,
             feedItemsResponse server c arguments st = (Return (JS.Obj response), st1) /\
             JS.lookup "items" response = JS.Arr [] /\
             (JS.lookup "total_items" props <> JS.Undefined ->
                JS.lookup "total_items" response = JS.num 0) /\
             (JS.lookup "total_items" props = JS.Undefined ->
                JS.lookup "total_items" response = JS.Undefined) /\
             (forall k, k <> "items" -> k <> "total_items" ->
                        JS.lookup k response = JS.lookup k props)).
  { unfold feedItemsResponse.
    rewrite (bind_return _ _ _ _ _ (prop_readable _ _ _ object)).
    rewrite (bind_return _ _ _ _ _ run).
    rewrite (bind_return _ _ _ _ _ (prop_object _ _ _)), array.
    cbn [JS.truthy JS.isArray andb]. cbv iota.
    rewrite unreadable.
    rewrite (bind_return _ _ _ _ _ (filterM_sameFeed _ _ _ typed)).
    rewrite (filter_ofFeed_NaN _ typed).
    cbn [setProp]. rewrite bind_ret.
    rewrite (bind_return _ _ _ _ _ (prop_object _ _ _)).
    rewrite lookup_assign_other by discriminate.
    destruct (negb (JS.strictEquals (JS.lookup "total_items" props) JS.Undefined))
      eqn:counted.
    - assert (present : JS.lookup "total_items" props <> JS.Undefined).
      { intros none. apply differs_from_undefined in none. congruence. }
      cbn [setProp]. eexists. split; [reflexivity |].
      split; [rewrite lookup_assign_other by discriminate; apply lookup_assign_same |].
      split; [intros _; apply lookup_assign_same |].
      split; [contradiction |].
      intros k notItems notTotal. now rewrite !lookup_assign_other.
    - apply differs_from_undefined in counted.
      eexists. split; [reflexivity |].
      split; [apply lookup_assign_same |].
      split; [contradiction |].
      split; [intros _; now rewrite lookup_assign_other by discriminate |].
      intros k notItems notTotal. now rewrite lookup_assign_other. }
  destruct whole as (response & result & facts).
  exists response. split; [| exact facts].
  unfold callTool, toolCase. cbn [String.eqb Ascii.eqb Bool.eqb].
  unfold handleErrors.
  rewrite (tryCatch_return _ _ _ _ _ (bind_return _ _ _ _ _ result)). reflexivity.
Qed.

(** C6.  The handler of [get_feed_items], called with the feed id [feed_id]
    (a string in which [parseInt] reads nothing or an integer it holds
    exactly), sends one request, whatever the service answers: the one that
    asks for the items of the feed [parseInt(feed_id)].  When the answer is
    accepted and carries an [items] array (of objects whose [feed_id] is a
    number, as [FreshRSSItem] declares), the response that is serialised
    holds, as [items], exactly the items of the raw response whose [feed_id]
    is the requested one, in their order; its [total_items] is the number of
    those items when the raw response had the field and stays absent
    otherwise; every other field is the raw one. *)
Theorem feed_items_refiltered c feed_id (st : Net World) :
  let arguments := JS.Obj [("feed_id", JS.Str feed_id)] in
  let asked := feverRequest c [("items", "");
                               ("feed_ids", JS.numberToString (JS.parseInt feed_id))] in
  let answer := server (world st) asked in
  let after := {| world := snd answer; log := log st ++ [(asked, fst answer)] |} in
  let run := feedItemsResponse server c arguments st in
  safeNumber (JS.parseInt feed_id) ->
  snd run = after /\
  forall status props elems,
    fst answer = Reply status (JS.Obj props) ->
    feverSuccess (fst answer) = true ->
    JS.lookup "items" props = JS.Arr elems ->
    Forall hasNumericFeedId elems ->
    let kept := filter (ofFeed (JS.parseInt feed_id)) elems in
    exists response,
      fst run = Return (JS.Obj response) /\
      tool_get_feed_items server JSON_stringify c arguments st
        = (Return {| text := JSON_stringify (JS.Obj response) 2 |}, after) /\
      JS.lookup "items" response = JS.Arr kept /\
      (JS.lookup "total_items" props <> JS.Undefined ->
         JS.lookup "total_items" response = JS.num (Z.of_nat (List.length kept))) /\
      (JS.lookup "total_items" props = JS.Undefined ->
         JS.lookup "total_items" response = JS.Undefined) /\
      (forall k, k <> "items" -> k <> "total_items" ->
                 JS.lookup k response = JS.lookup k props).
Proof.
  intros arguments asked answer after run _.
  assert (object : readable arguments) by reflexivity.
  destruct (request_exchange server c "" "GET"
              [("items", ""); ("feed_ids", JS.numberToString (JS.parseInt feed_id))] st)
    as (state & good & _).
  fold asked in state, good. fold answer in state, good. fold after in state.
  assert (left : snd run = after).
  { subst run. rewrite (feedItemsResponse_state server c arguments st object). exact state. }
  split; [exact left |].
  intros status props elems replied accepted array typed kept.
  specialize (good accepted). rewrite replied in good. cbn [replyData] in good.
  assert (sent : getFeedItems server c (JS.Str feed_id) st = (Return (JS.Obj props), after)).
  { unfold getFeedItems.
    change (JS.toString (JS.Num (JS.parseInt feed_id)))
      with (JS.numberToString (JS.parseInt feed_id)).
    rewrite <- state, <- good. apply surjective_pairing. }
  assert (whole : exists response,
             run = (Return (JS.Obj response), after) /\
             JS.lookup "items" response = JS.Arr kept /\
             (JS.lookup "total_items" props <> JS.Undefined ->
                JS.lookup "total_items" response
                = JS.num (Z.of_nat (List.length kept))) /\
             (JS.lookup "total_items" props = JS.Undefined ->
                JS.lookup "total_items" response = JS.Undefined) /\
             (forall k, k <> "items" -> k <> "total_items" ->
                        JS.lookup k response = JS.lookup k props)).
  { subst run. unfold feedItemsResponse. subst arguments.
    rewrite (bind_return _ _ _ _ _ (prop_object _ _ _)).
    change (JS.lookup "feed_id" [("feed_id", JS.Str feed_id)]) with (JS.Str feed_id).
    rewrite (bind_return _ _ _ _ _ sent).
    rewrite (bind_return _ _ _ _ _ (prop_object _ _ _)), array.
    cbn [JS.truthy JS.isArray andb]. cbv iota.
    change (JS.parseInt (JS.toString (JS.Str feed_id))) with (JS.parseInt feed_id).
    rewrite (bind_return _ _ _ _ _ (filterM_sameFeed _ _ _ typed)). fold kept.
    cbn [setProp]. rewrite bind_ret.
    rewrite (bind_return _ _ _ _ _ (prop_object _ _ _)).
    rewrite lookup_assign_other by discriminate.
    destruct (negb (JS.strictEquals (JS.lookup "total_items" props) JS.Undefined))
      eqn:counted.
    - assert (present : JS.lookup "total_items" props <> JS.Undefined).
      { intros none. apply differs_from_undefined in none. congruence. }
      cbn [setProp]. eexists. split; [reflexivity |].
      split; [rewrite lookup_assign_other by discriminate; apply lookup_assign_same |].
      split; [intros _; apply lookup_assign_same |].
      split; [contradiction |].
      intros k notItems notTotal. now rewrite !lookup_assign_other.
    - apply differs_from_undefined in counted.
      eexists. split; [reflexivity |].
      split; [apply lookup_assign_same |].
      split; [contradiction |].
      split; [intros _; now rewrite lookup_assign_other by discriminate |].
      intros k notItems notTotal. now rewrite lookup_assign_other. }
  destruct whole as (response & result & facts).
  exists response. split; [now rewrite result |]. split; [| exact facts].
  unfold tool_get_feed_items, handleErrors.
  rewrite (tryCatch_return _ _ _ _ _ (bind_return _ _ _ _ _ result)). reflexivity.
Qed.

End MoreFeedItems.

(** The example of the specification: feed 42 is asked for, the raw response
    holds items of feeds 42 and 43 and counts 3; one request is sent, for
    feed 42, and what is serialised holds the two items of feed 42 and the
    count 2. *)
Lemma feed_items_refiltered_witness :
  tool_get_feed_items scripted verbatim testClient
    (JS.Obj [("feed_id", JS.Str "42")]) (start feedScript)
  = (Return {| text := feverEnvelope
                         [("total_items", JS.num 2);
                          ("items", JS.Arr [feverItem "1" 42 0; feverItem "3" 42 1])] |},
     {| world := [];
        log := [(feverRequest testClient [("items", ""); ("feed_ids", "42")],
                 Reply 200 (feverEnvelope
                              [("total_items", JS.num 3);
                               ("items", JS.Arr [feverItem "1" 42 0; feverItem "2" 43 0;
                                                 feverItem "3" 42 1])]))] |}).
Proof.
  destruct (feed_items_refiltered scripted verbatim testClient "42" (start feedScript))
    as [_ filtered].
  - unfold safeNumber, safeInteger. vm_compute. discriminate.
  - edestruct filtered as (response & result & tool & _).
    + lazy. reflexivity.
    + reflexivity.
    + lazy. reflexivity.
    + repeat constructor; eexists; reflexivity.
    + rewrite tool. vm_compute in result. injection result as <-. reflexivity.
Defined.

(* ================================================================== *)
(** * Further properties: the constructor and the remaining tools *)

Section MoreTools.

Context {World : Type}.
Context (server : World -> AxiosConfig -> ServerReply * World).
Context (JSON_stringify : JS.value -> Z -> JS.value).
Context (now : Z).

Lemma removeTrailingSlash_slash s : JS.removeTrailingSlash (s +++ "/") = s.
Proof.
  induction s as [| c s IH]; [reflexivity |].
  destruct s as [| d s]; [reflexivity |].
  change (JS.removeTrailingSlash (String c (String d s) +++ "/"))
    with (String c (JS.removeTrailingSlash (String d s +++ "/"))).
  now rewrite IH.
Qed.

Lemma removeTrailingSlash_none s :
  (forall t, s <> t +++ "/") -> JS.removeTrailingSlash s = s.
Proof.
  induction s as [| c s IH]; intros none; [reflexivity |].
  destruct s as [| d s].
  - simpl. destruct (Ascii.eqb_spec c "/") as [-> | _]; [| reflexivity].
    now destruct (none EmptyString).
  - change (JS.removeTrailingSlash (String c (String d s)))
      with (String c (JS.removeTrailingSlash (String d s))).
    rewrite IH; [reflexivity |].
    intros t ends. apply (none (String c t)). simpl. now rewrite ends.
Qed.

(** X19.  The constructor drops one slash at the end of the address, and only
    one; an address without one is kept.  The session establishment drops
    one more from the stored address, so with an address that ends in two
    slashes the two protocols are not sent to the same place: the simple
    protocol goes to [<address>//api/fever.php], the login to
    [<address>/api/greader.php/accounts/ClientLogin]. *)
Theorem constructor_drops_one_slash md5Hex address user pass :
  let built s := newFreshRSSClient md5Hex s user pass in
  apiUrl (built (address +++ "/")) = address /\
  ((forall t, address <> t +++ "/") -> built address = built (address +++ "/")) /\
  (forall data,
      url (feverRequest (built ((address +++ "/") +++ "/")) data)
      = (address +++ "/") +++ "/api/fever.php") /\
  url (loginRequest (built ((address +++ "/") +++ "/")))
  = (address +++ "/api/greader.php") +++ "/accounts/ClientLogin".
Proof.
  intros built. subst built. unfold newFreshRSSClient, feverRequest, loginRequest.
  cbn [apiUrl url]. rewrite !removeTrailingSlash_slash.
  split; [reflexivity |]. split; [| split; reflexivity].
  intros none. now rewrite removeTrailingSlash_none.
Qed.

(** A tool that makes one call of the simple protocol and answers from its
    result: the answer is produced only when the reply is accepted; any
    other reply makes the tool call fail with the internal error. *)
Lemma respond_after_request c method data (k : JS.value -> ToolResult)
    (st : Net World) :
  let asked := feverRequest c data in
  let answer := server (world st) asked in
  let run := handleErrors (response <- request server c "" method data ;;
                           ret (k response)) st in
  snd run = {| world := snd answer; log := log st ++ [(asked, fst answer)] |} /\
  (feverSuccess (fst answer) = true -> fst run = Return (k (replyData (fst answer)))) /\
  (feverSuccess (fst answer) = false ->
     exists detail, fst run = Throw (McpError InternalError detail)).
Proof.
  intros asked answer run. subst asked answer run.
  destruct (request_run_exact server c "" method data st)
    as (reply & w & res & run & good & bad).
  destruct (request_exchange server c "" method data st) as (state & _).
  rewrite run in state. simpl in state. injection state as world_ logged.
  apply app_inv_head in logged. injection logged as reply_.
  rewrite <- world_, <- reply_. unfold handleErrors.
  destruct (feverSuccess reply) eqn:ok.
  - destruct good as [-> _]; trivial.
    rewrite (tryCatch_return _ _ _ _ _ (bind_return _ _ _ _ _ run)).
    split; [reflexivity |]. split; [reflexivity | discriminate].
  - destruct bad as (e & -> & kind); trivial.
    rewrite (tryCatch_throw _ _ _ _ _ (bind_throw _ _ _ _ _ run)).
    unfold requestFailure in kind.
    destruct (replied2xx reply); [subst e | destruct kind as [detail ->]];
      (split; [reflexivity |]; split; [discriminate |]; intros _; simpl; eauto).
Qed.

(** X20.  The tools [list_feeds] and [get_feed_groups] never read their arguments.
    Each sends one request, with the one field [feeds] or [groups] (empty)
    beside the key, and answers with the accepted body, serialised with an
    indentation of 2; any other reply makes the call fail with the internal
    error. *)
Theorem listing_tools_serialise_body c arguments (st : Net World) :
  forall name field,
    (name = "list_feeds" /\ field = "feeds") \/
    (name = "get_feed_groups" /\ field = "groups") ->
    let asked := feverRequest c [(field, "")] in
    let answer := server (world st) asked in
    let run := callTool server JSON_stringify now c name arguments st in
    snd run = {| world := snd answer; log := log st ++ [(asked, fst answer)] |} /\
    (feverSuccess (fst answer) = true ->
       fst run = Return {| text := JSON_stringify (replyData (fst answer)) 2 |}) /\
    (feverSuccess (fst answer) = false ->
       exists detail, fst run = Throw (McpError InternalError detail)).
Proof.
  intros name field [[-> ->] | [-> ->]] asked answer run; subst asked answer run;
    unfold callTool, toolCase; cbn [String.eqb Ascii.eqb Bool.eqb].
  - exact (respond_after_request c "GET" [("feeds", "")]
             (fun response => {| text := JSON_stringify response 2 |}) st).
  - exact (respond_after_request c "GET" [("groups", "")]
             (fun response => {| text := JSON_stringify response 2 |}) st).
Qed.


(** X22.  A call without an argument object.  The three tools that take no
    argument do not look at it.  Each of the eight others fails at once, with
    the internal error, before anything is sent. *)
Theorem tools_without_arguments c name (st : Net World) :
  (In name ["list_feeds"; "get_feed_groups"; "get_unread"] ->
   forall a1 a2,
     callTool server JSON_stringify now c name a1 st
     = callTool server JSON_stringify now c name a2 st) /\
  (In name ["get_feed_items"; "mark_item_read"; "mark_item_unread"; "mark_feed_read";
            "get_items"; "unsubscribe_feed"; "create_category"; "subscribe_feed"] ->
   forall arguments,
     JS.isNullish arguments = true ->
     exists detail,
       callTool server JSON_stringify now c name arguments st
       = (Throw (McpError InternalError detail), st)).
Proof.
  split.
  - intros listed a1 a2. simpl in listed.
    repeat destruct listed as [<- | listed]; try contradiction; reflexivity.
  - intros listed arguments missing. simpl in listed.
    assert (first : forall key (k : JS.value -> M World ToolResult),
               exists detail,
                 handleErrors (x <- prop arguments key ;; k x) st
                 = (Throw (McpError InternalError detail), st)).
    { intros key k. unfold handleErrors, tryCatch, bind, prop.
      rewrite missing. simpl. unfold throw. eauto. }
    repeat destruct listed as [<- | listed]; try contradiction;
      unfold callTool, toolCase; cbn [String.eqb Ascii.eqb Bool.eqb];
      try apply first.
    unfold feedItemsResponse, handleErrors, tryCatch, bind, prop.
    rewrite missing. simpl. unfold throw. eauto.
Qed.

End MoreTools.

(* ================================================================== *)
(** * The further properties on the scripted service *)


Lemma getUnreadItems_requests_ids_in_batches_witness :
  map fst (log (snd (getUnreadItems scripted testClient (start unreadScript))))
  = feverRequest testClient [("unread_item_ids", "")]
      :: map (batchRequest testClient) (chunkArray ["1"; "2"; "3"] 50).
Proof.
  edestruct (getUnreadItems_requests_ids_in_batches scripted testClient unreadScript
               (Reply 200 (feverEnvelope [("unread_item_ids", JS.Str "1,2,3")]))
               [Reply 200 (feverEnvelope
                             [("items", JS.Arr [feverItem "1" 7 0; feverItem "2" 7 1;
                                                feverItem "3" 8 0])])]
               ["1"; "2"; "3"])
    as [sent _].
  - vm_compute. reflexivity.
  - repeat constructor.
  - reflexivity.
  - repeat first [discriminate | constructor].
  - exact sent.
Defined.

Lemma getUnreadItems_null_item_witness :
  exists text,
    fst (callTool scripted plainStringify 0 testClient "get_unread" JS.Undefined
           (start nullItemScript))
    = Throw (McpError InternalError (exnToString (TypeError text))).
Proof.
  edestruct (getUnreadItems_null_item scripted plainStringify 0 testClient
               nullItemScript JS.Undefined)
    as (text & _ & wrapped).
  - lazy. reflexivity.
  - repeat constructor.
  - right. left. reflexivity.
  - exists text. exact wrapped.
Defined.


Lemma callTool_unknown_tool_witness :
  callTool scripted plainStringify 0 testClient "delete_feed" JS.Undefined
    (start acknowledgedScript)
  = (Throw (McpError MethodNotFound "Unknown tool: delete_feed"),
     start acknowledgedScript).
Proof.
  apply (callTool_unknown_tool scripted plainStringify 0 testClient "delete_feed").
  unfold toolNames. simpl. intuition discriminate.
Defined.

Lemma callTool_announced_tool_witness :
  exists text,
    McpError InternalError "FreshRSS Google Reader login failed: Unauthorized"
    = McpError InternalError text.
Proof.
  apply (callTool_announced_tool scripted plainStringify 0 testClient "create_category"
           (JS.Obj [("category_name", JS.Str "AI")]) (start refusedLoginScript)).
  - unfold toolNames. simpl. tauto.
  - vm_compute. reflexivity.
Defined.


Lemma subscribeFeed_label_witness :
  map (fun x => form (fst x))
      (skipn 2 (log (snd (subscribeFeed scripted plainStringify testClient
                            "https://example.org/feed.xml" (JS.Str "AI")
                            (start acceptedEditScript)))))
  = [[("ac", "subscribe"); ("s", "feed/https://example.org/feed.xml");
      ("T", "editToken"); ("a", "user/-/label/AI")]].
Proof.
  edestruct (subscribeFeed_label scripted plainStringify testClient
               "https://example.org/feed.xml" (JS.Str "AI")
               (start acceptedEditScript))
    as [_ labelled].
  - vm_compute. reflexivity.
  - specialize (labelled "AI" eq_refl ltac:(discriminate)).
    apply (f_equal (map snd)) in labelled.
    rewrite map_map in labelled. exact labelled.
Defined.




Lemma feed_id_as_digits_or_number_witness :
  callTool scripted plainStringify 0 testClient "get_feed_items"
    (JS.Obj [("feed_id", JS.Str "42")]) (start feedScript)
  = callTool scripted plainStringify 0 testClient "get_feed_items"
      (JS.Obj [("feed_id", JS.num 42)]) (start feedScript).
Proof.
  apply (feed_id_as_digits_or_number scripted plainStringify 0 testClient 42).
  - unfold safeInteger. simpl. lia.
  - reflexivity.
  - reflexivity.
  - reflexivity.
  - reflexivity.
Defined.

Lemma feed_items_without_array_witness :
  fst (callTool scripted plainStringify 0 testClient "get_feed_items"
         (JS.Obj [("feed_id", JS.Str "42")]) (start countOnlyScript))
  = Return {| text := plainStringify (feverEnvelope [("total_items", JS.num 3)]) 2 |}.
Proof.
  erewrite (feed_items_without_array scripted plainStringify 0 testClient
              (JS.Obj [("feed_id", JS.Str "42")]) (start countOnlyScript)).
  - reflexivity.
  - reflexivity.
  - vm_compute. reflexivity.
  - reflexivity.
Defined.

Lemma feed_items_of_unreadable_id_witness :
  exists response,
    fst (callTool scripted plainStringify 0 testClient "get_feed_items"
           (JS.Obj [("feed_id", JS.Str "news")]) (start feedScript))
    = Return {| text := plainStringify (JS.Obj response) 2 |} /\
    JS.lookup "items" response = JS.Arr [] /\
    JS.lookup "total_items" response = JS.num 0.
Proof.
  edestruct (feed_items_of_unreadable_id scripted plainStringify 0 testClient
               (JS.Obj [("feed_id", JS.Str "news")]) (start feedScript))
    as (response & result & items & total & _).
  - reflexivity.
  - reflexivity.
  - vm_compute. reflexivity.
  - vm_compute. reflexivity.
  - repeat constructor; eexists; reflexivity.
  - exists response. rewrite result. split; [reflexivity |].
    split; [exact items |]. apply total. discriminate.
Defined.

Lemma listing_tools_serialise_body_witness :
  fst (callTool scripted plainStringify 0 testClient "list_feeds" JS.Undefined
         (start acknowledgedScript))
  = Return {| text := plainStringify (feverEnvelope []) 2 |}.
Proof.
  destruct (listing_tools_serialise_body scripted plainStringify 0 testClient
              JS.Undefined (start acknowledgedScript) "list_feeds" "feeds"
              (or_introl (conj eq_refl eq_refl)))
    as (_ & accepted & _).
  exact (accepted eq_refl).
Defined.

